(** * jade.learn: the Learner adapter and its ragged flattener

    A shallow embedding of [src/jade/learn.py].  The two reshaping methods
    [flatten] and [inverse_flatten] are pure and are embedded as total
    functions over a small universe of Python values; the methods that talk
    to the vectorizer, the model and the file system ([fit], [fit_predict],
    [predict], [load]) are embedded over explicit collaborators, with the
    instance state and a trace of the collaborator calls threaded through a
    state-and-exception monad. *)

From Stdlib Require Import Ascii String Bool ZArith Lia List.
Import ListNotations.

Set Implicit Arguments.
Set Warnings "-register-all".

(** ** Python values *)

(** What [flatten] and [inverse_flatten] can tell apart: a value that is a
    [list], [tuple] or [numpy.ndarray] (it passes the [isinstance] test, has
    a [len], is indexed, sliced and iterated along its first axis), and
    everything else, which stays opaque.  [numpy.array(l)] is the conversion
    of the list [l] into such a sequence, so it is the identity here.
    Opaque scalars carry no [len]: numbers and [None], not strings. *)
Inductive value (A : Type) : Type :=
| Atom (a : A)
| Seq (items : list (value A)).

Arguments Atom {A} a.
Arguments Seq {A} items.

(** ** Exceptions and results *)

Inductive exn : Type :=
| TypeError
| IndexError
| ValueError
| AssertionError (msg : string)
| Foreign (name : string).

Inductive result (T : Type) : Type :=
| Ok (v : T)
| Raise (e : exn).

Arguments Ok {T} v.
Arguments Raise {T} e.

Definition bind {T U : Type} (r : result T) (k : T -> result U) : result U :=
  match r with
  | Ok v => k v
  | Raise e => Raise e
  end.

Declare Scope py_scope.
Delimit Scope py_scope with py.
Notation "x <- r ;; k" := (bind r (fun x => k))
  (at level 100, r at next level, right associativity) : py_scope.
Notation "' p <- r ;; k" := (bind r (fun x => let p := x in k))
  (at level 100, p pattern, r at next level, right associativity) : py_scope.
Local Open Scope py_scope.

(** ** Builtins on sequences *)

Section Builtins.
Context {A : Type}.

(** [len(v)]: a [TypeError] on an object without a length. *)
Definition len (v : value A) : result Z :=
  match v with
  | Seq l => Ok (Z.of_nat (length l))
  | Atom _ => Raise TypeError
  end.

(** How a slice bound [i] is adjusted to a sequence of length [n]: a
    negative bound counts from the end, and every bound is clipped to
    [0..n]. *)
Definition adjust_index (n i : Z) : Z :=
  if (i <? 0)%Z then Z.max (i + n) 0 else Z.min i n.

(** [l[lo:hi]] on a list. *)
Definition slice {T : Type} (l : list T) (lo hi : Z) : list T :=
  let n := Z.of_nat (length l) in
  let start := adjust_index n lo in
  let stop := adjust_index n hi in
  firstn (Z.to_nat (stop - start)) (skipn (Z.to_nat start) l).

(** [v[lo:hi]]: a [TypeError] on an object that is not subscriptable. *)
Definition getslice (v : value A) (lo hi : Z) : result (list (value A)) :=
  match v with
  | Seq l => Ok (slice l lo hi)
  | Atom _ => Raise TypeError
  end.
End Builtins.

(** ** Learner.flatten *)

(** What [flatten] returns: the two-element tuple [([X], [Y])] of the
    [else] branch, or the three-element tuple [(fX, fY, fZ)] after the
    loop.  [dat[0]] and [dat[1]] are defined on both. *)
Inductive flat (A : Type) : Type :=
| Pair (fX fY : list (value A))
| Triple (fX fY : list (value A)) (fZ : list Z).

Arguments Pair {A} fX fY.
Arguments Triple {A} fX fY fZ.

Definition dat0 {A} (dat : flat A) : list (value A) :=
  match dat with Pair fX _ | Triple fX _ _ => fX end.

Definition dat1 {A} (dat : flat A) : list (value A) :=
  match dat with Pair _ fY | Triple _ fY _ => fY end.

Section FlattenLoop.
Context {A : Type}.
Variable self_flatten : value A -> value A -> result (flat A).

(** The body of [for idx in range(0, len(X))], as a walk down [X] and [Y]
    side by side: [xs] and [ys] are what is left of them from [idx] on.
    [X[idx]] always exists; [Y[idx]] is an [IndexError] once [Y] is
    exhausted.  The three accumulators are [fX], [fY] and [fZ]. *)
Fixpoint flatten_loop (xs ys : list (value A))
         (fX fY : list (value A)) (fZ : list Z) {struct ys}
  : result (flat A) :=
  match xs with
  | [] => Ok (Triple fX fY fZ)
  | x :: xs' =>
      match ys with
      | [] => Raise IndexError
      | y :: ys' =>
          dat <- self_flatten x y ;;
          n <- len x ;;
          flatten_loop xs' ys' (fX ++ dat0 dat) (fY ++ dat1 dat) (fZ ++ [n])
      end
  end.
End FlattenLoop.

Fixpoint flatten {A} (X Y : value A) {struct Y} : result (flat A) :=
  match Y with
  | Seq ys =>
      match X with
      | Seq xs => flatten_loop flatten xs ys [] [] []
      | Atom _ => Raise TypeError
      end
  | Atom _ => Ok (Pair [X] [Y])
  end.

(** ** Learner.inverse_flatten *)

Section InverseFlatten.
Context {A : Type}.

(** [for iz, z in enumerate(Z)]: [cidx] is the cursor, [tX] and [tY] the
    groups cut so far. *)
Fixpoint regroup (X Y : value A) (fZ : list Z) (cidx : Z)
         (tX tY : list (value A)) : result (list (value A) * list (value A)) :=
  match fZ with
  | [] => Ok (tX, tY)
  | z :: fZ' =>
      sx <- getslice X cidx (cidx + z) ;;
      sy <- getslice Y cidx (cidx + z) ;;
      regroup X Y fZ' (cidx + z) (tX ++ [Seq sx]) (tY ++ [Seq sy])
  end.

Definition inverse_flatten (X Y : value A) (fZ : list Z)
  : result (value A * value A) :=
  n <- len Y ;;
  if (Z.of_nat (length fZ) <? n)%Z then
    '(tX, tY) <- regroup X Y fZ 0%Z [] [] ;;
    Ok (Seq tX, Seq tY)
  else Ok (X, Y).
End InverseFlatten.

(** ** The instance and its collaborators *)

(** The vectorizer ([CompositeTransform], from [jade.transform]) and the
    model (scikit-learn's, [SVC] by default) are objects of other modules:
    they are taken as interfaces.  A method returns the object as the call
    left it, next to its Python result; [pred] tells whether the call says
    [pred=True]. *)
Class Vectorizer (A V : Type) : Type := {
  clone : V -> V;
  fit_transform :
    V -> value A -> value A -> bool -> result (V * (value A * value A));
  inverse_fit_transform :
    V -> value A -> value A -> result (V * (value A * value A))
}.

Class Model (A M : Type) : Type := {
  model_fit : M -> value A -> value A -> result M;
  model_predict : M -> value A -> result (value A)
}.

(** A call that leaves the instance, with its arguments. *)
Inductive call (A : Type) : Type :=
| CallClone
| CallFitTransform (X Y : value A) (pred : bool)
| CallInverseFitTransform (X Y : value A)
| CallModelFit (X Y : value A)
| CallModelPredict (X : value A).

Arguments CallClone {A}.
Arguments CallFitTransform {A} X Y pred.
Arguments CallInverseFitTransform {A} X Y.
Arguments CallModelFit {A} X Y.
Arguments CallModelPredict {A} X.

(** A method body: it reads and writes a state [W], and returns or raises.
    What was written before an exception stays written. *)
Section Prog.
Variable W : Type.

Definition prog (T : Type) : Type := W -> result T * W.

Definition ret {T} (v : T) : prog T := fun w => (Ok v, w).

Definition raise {T} (e : exn) : prog T := fun w => (Raise e, w).

Definition pbind {T U} (c : prog T) (k : T -> prog U) : prog U :=
  fun w =>
    match c w with
    | (Ok v, w') => k v w'
    | (Raise e, w') => (Raise e, w')
    end.

Definition lift {T} (r : result T) : prog T := fun w => (r, w).
End Prog.

Arguments ret {W T} v.
Arguments raise {W T} e.
Arguments pbind {W T U} c k.
Arguments lift {W T} r.

Notation "x <~ c ;; k" := (pbind c (fun x => k))
  (at level 100, c at next level, right associativity) : py_scope.
Notation "' p <~ c ;; k" := (pbind c (fun x => let p := x in k))
  (at level 100, p pattern, c at next level, right associativity) : py_scope.
Notation "c ;;; k" := (pbind c (fun _ => k))
  (at level 100, right associativity) : py_scope.

Section Learner.
Context {A V M : Type} `{Vectorizer A V} `{Model A M}.

(** The attributes of a [Learner]; [None] is the class default of the
    three cached arrays. *)
Record learner : Type := {
  vectorizer : V;
  model : M;
  _X : option (value A);
  _Y : option (value A);
  _Z : option (list Z)
}.

(** The instance, and the calls made so far (latest last). *)
Record world : Type := {
  self : learner;
  calls : list (call A)
}.

Definition get_self : prog world learner := fun w => (Ok (self w), w).

Definition put_self (s : learner) : prog world unit :=
  fun w => (Ok tt, {| self := s; calls := calls w |}).

Definition log (c : call A) : prog world unit :=
  fun w => (Ok tt, {| self := self w; calls := calls w ++ [c] |}).

(** [a, b, c = dat]: a [ValueError] unless [dat] has three elements. *)
Definition unpack3 (dat : flat A)
  : result (list (value A) * list (value A) * list Z) :=
  match dat with
  | Triple fX fY fZ => Ok (fX, fY, fZ)
  | Pair _ _ => Raise ValueError
  end.

(** [self.vectorizer.fit_transform(X, Y)]: the object that is called is
    the instance's own. *)
Definition self_fit_transform (X Y : value A)
  : prog world (value A * value A) :=
  log (CallFitTransform X Y false) ;;;
  s <~ get_self ;;
  '(v, tXY) <~ lift (fit_transform (vectorizer s) X Y false) ;;
  put_self {| vectorizer := v; model := model s;
              _X := _X s; _Y := _Y s; _Z := _Z s |} ;;;
  ret tXY.

(** [self.vectorizer.inverse_fit_transform(X, Y)]. *)
Definition self_inverse_fit_transform (X Y : value A)
  : prog world (value A * value A) :=
  log (CallInverseFitTransform X Y) ;;;
  s <~ get_self ;;
  '(v, rXY) <~ lift (inverse_fit_transform (vectorizer s) X Y) ;;
  put_self {| vectorizer := v; model := model s;
              _X := _X s; _Y := _Y s; _Z := _Z s |} ;;;
  ret rXY.

(** [self.vectorizer.clone()]: a fresh object, local to the caller. *)
Definition self_clone : prog world V :=
  log CallClone ;;;
  s <~ get_self ;;
  ret (clone (vectorizer s)).

(** [obj.fit_transform(X, Y, pred=True)] and
    [obj.inverse_fit_transform(X, Y)] on a local object. *)
Definition obj_fit_transform (obj : V) (X Y : value A)
  : prog world (V * (value A * value A)) :=
  log (CallFitTransform X Y true) ;;;
  lift (fit_transform obj X Y true).

Definition obj_inverse_fit_transform (obj : V) (X Y : value A)
  : prog world (V * (value A * value A)) :=
  log (CallInverseFitTransform X Y) ;;;
  lift (inverse_fit_transform obj X Y).

(** [self.model.fit(X, Y)] and [self.model.predict(X)]. *)
Definition self_model_fit (X Y : value A) : prog world unit :=
  log (CallModelFit X Y) ;;;
  s <~ get_self ;;
  m <~ lift (model_fit (model s) X Y) ;;
  put_self {| vectorizer := vectorizer s; model := m;
              _X := _X s; _Y := _Y s; _Z := _Z s |}.

Definition self_model_predict (X : value A) : prog world (value A) :=
  log (CallModelPredict X) ;;;
  s <~ get_self ;;
  lift (model_predict (model s) X).

(** *** Learner.fit *)
Definition fit (X Y : value A) : prog world unit :=
  '(tX, tY) <~ self_fit_transform X Y ;;
  dat <~ lift (flatten tX tY) ;;
  '(fX, fY, fZ) <~ lift (unpack3 dat) ;;
  s <~ get_self ;;
  put_self {| vectorizer := vectorizer s; model := model s;
              _X := Some (Seq fX); _Y := Some (Seq fY); _Z := Some fZ |} ;;;
  self_model_fit (Seq fX) (Seq fY).

(** *** Learner.fit_predict *)
(** After [fit] has returned the three attributes are set; on [None] the
    model or [len] would be handed [None]. *)
Definition fit_predict (X Y : value A) : prog world (value A) :=
  fit X Y ;;;
  s <~ get_self ;;
  match _X s, _Z s with
  | Some sX, Some sZ =>
      pY <~ self_model_predict sX ;;
      '(fX, fY) <~ lift (inverse_flatten sX pY sZ) ;;
      '(rX, rY) <~ self_inverse_fit_transform fX fY ;;
      ret rY
  | _, _ => raise TypeError
  end.

(** *** Learner.predict *)
Definition predict (X : value A) : prog world (value A) :=
  s <~ get_self ;;
  match _Y s with
  | None =>
      raise (AssertionError
               "Model has not been fit! Cannot make predictions for new data.")
  | Some sY =>
      obj <~ self_clone ;;
      '(obj1, (tX, tY)) <~ obj_fit_transform obj X sY ;;
      dat <~ lift (flatten tX tY) ;;
      '(fX, fY, fZ) <~ lift (unpack3 dat) ;;
      pY <~ self_model_predict (Seq fX) ;;
      '(gX, gY) <~ lift (inverse_flatten (Seq fX) pY fZ) ;;
      '(obj2, (rX, rY)) <~ obj_inverse_fit_transform obj1 gX pY ;;
      ret rY
  end.
End Learner.

Arguments learner A V M : clear implicits.
Arguments world A V M : clear implicits.

(** ** Learner.load *)

Section Load.
(** The file system ([os.path.exists], [os.path.join]), the pickle reader
    ([joblib.load]) and the models directory of the ambient session
    ([session.models], a module global that this file reads and never
    binds) are the environment of [load]. *)
Variable Obj : Type.
Variable path_exists : string -> bool.
Variable path_join : string -> string -> string.
Variable joblib_load : string -> result Obj.
Variable session_models : string.

(** [from_config] is a stub: its body is [return], so it returns [None]. *)
Definition from_config (filename : string) : result (option Obj) :=
  Ok None.

Definition load (filename : string) : result (option Obj) :=
  if path_exists filename then
    match joblib_load filename with
    | Ok o => Ok (Some o)
    | Raise _ => from_config filename
    end
  else if path_exists (path_join session_models (filename ++ ".pkl")) then
    o <- joblib_load (path_join session_models (filename ++ ".pkl")) ;;
    Ok (Some o)
  else if path_exists (path_join session_models (filename ++ ".yml")) then
    from_config (path_join session_models (filename ++ ".yml"))
  else
    Raise (AssertionError "Cannot load model. Pickle file does not exist!").
End Load.

(** ** Shapes of the data, and what the properties are stated with *)

Section All2.
Context {A : Type}.
Variable f : value A -> value A -> bool.

(** Two sequences of equal length whose elements are pairwise related. *)
Fixpoint all2 (xs ys : list (value A)) {struct ys} : bool :=
  match xs, ys with
  | [], [] => true
  | x :: xs', y :: ys' => f x y && all2 xs' ys'
  | _, _ => false
  end.
End All2.

Section Shapes.
Context {A : Type}.

Definition is_seq (v : value A) : bool :=
  match v with Seq _ => true | Atom _ => false end.

Definition is_atom (v : value A) : bool := negb (is_seq v).

Definition items (v : value A) : list (value A) :=
  match v with Seq l => l | Atom _ => [] end.

(** The number of elements of a group, as [fZ] records it. *)
Definition size (v : value A) : Z := Z.of_nat (length (items v)).

(** [Y] is a flat sequence of scalars. *)
Definition flat_seq (Y : value A) : bool :=
  match Y with Seq ys => forallb is_atom ys | Atom _ => false end.

(** [Y] is nested: its elements are sequences. *)
Definition nested (Y : value A) : bool :=
  match Y with Seq ys => forallb is_seq ys | Atom _ => false end.

(** [Y] has exactly one level of nesting: every [Y[i]] is a flat sequence
    of scalars. *)
Definition nested_once (Y : value A) : bool :=
  match Y with Seq ys => forallb flat_seq ys | Atom _ => false end.

(** [X] and [Y] have matching ragged shape: [X] is parallel to [Y] at every
    level of nesting, and where [Y] has a scalar label [X] has a leaf
    feature vector, a sequence of its own. *)
Fixpoint matching (X Y : value A) {struct Y} : bool :=
  match Y with
  | Seq ys =>
      match X with
      | Seq xs => all2 matching xs ys
      | Atom _ => false
      end
  | Atom _ => is_seq X
  end.

(** Python's [sum] of a list of integers. *)
Definition total (fZ : list Z) : Z := fold_right Z.add 0%Z fZ.

(** The concatenation of a sequence of groups; a scalar where a group is
    expected cannot be iterated. *)
Fixpoint chain (groups : list (value A)) : result (list (value A)) :=
  match groups with
  | [] => Ok []
  | Seq l :: groups' => rest <- chain groups' ;; Ok (l ++ rest)
  | Atom _ :: _ => Raise TypeError
  end.

(** The slices that the cursor of [inverse_flatten] cuts out of [l],
    starting at [cidx]. *)
Fixpoint cuts (l : list (value A)) (fZ : list Z) (cidx : Z)
  : list (list (value A)) :=
  match fZ with
  | [] => []
  | z :: fZ' => slice l cidx (cidx + z) :: cuts l fZ' (cidx + z)
  end.
End Shapes.

(** ** A small instance, to run the methods on *)

Module Demo.

(** A vectorizer without state.  Fitting leaves the data as it is; with
    [pred=True] there are no responses, and it hands back a placeholder
    label for every sample of every group. *)
Definition placeholder (X : value Z) : value Z :=
  Seq (map (fun g => Seq (map (fun _ => Atom 0%Z) (items g))) (items X)).

Definition vec : Vectorizer Z unit := {|
  clone := fun v => v;
  fit_transform := fun v X Y pred =>
    Ok (v, (X, if pred then placeholder X else Y));
  inverse_fit_transform := fun v X Y => Ok (v, (X, Y))
|}.

(** A model that remembers nothing and predicts label 7 for every row. *)
Definition mdl : Model Z unit := {|
  model_fit := fun m _ _ => Ok m;
  model_predict := fun m X =>
    match X with
    | Seq rows => Ok (Seq (map (fun _ => Atom 7%Z) rows))
    | Atom _ => Raise (Foreign "ValueError")
    end
|}.

Definition a1 : value Z := Seq [Atom 1%Z; Atom 2%Z].
Definition a2 : value Z := Seq [Atom 3%Z; Atom 4%Z].
Definition b1 : value Z := Seq [Atom 5%Z; Atom 6%Z].

Definition X0 : value Z := Seq [Seq [a1; a2]; Seq [b1]].
Definition Y0 : value Z := Seq [Seq [Atom 0%Z; Atom 1%Z]; Seq [Atom 1%Z]].

(** What [X0] and [Y0] flatten to, and three predictions. *)
Definition flatX : list (value Z) := [a1; a2; b1].
Definition flatY : list (value Z) := [Atom 0%Z; Atom 1%Z; Atom 1%Z].
Definition predicted : list (value Z) := [Atom 9%Z; Atom 8%Z; Atom 7%Z].

(** A fresh instance, and the same instance with the cache of a [fit]. *)
Definition unfit : learner Z unit unit :=
  {| vectorizer := tt; model := tt; _X := None; _Y := None; _Z := None |}.

Definition fitted : learner Z unit unit :=
  {| vectorizer := tt; model := tt;
     _X := Some (Seq flatX);
     _Y := Some (Seq flatY);
     _Z := Some [2%Z; 1%Z] |}.

Definition start (s : learner Z unit unit) : world Z unit unit :=
  {| self := s; calls := [] |}.

(** A file system with one unreadable file, and nothing in the models
    directory. *)
Definition exists_ (path : string) : bool := String.eqb path "broken.pkl".

Definition join (a b : string) : string := a ++ "/" ++ b.

Definition unpickle (path : string) : result unit := Raise (Foreign "EOFError").

End Demo.

(** ** The remaining methods of the instance *)

Section Map2.
Context {A B : Type}.
Variable f : value A -> value A -> B.

(** [f] along two sequences side by side, as far as both go. *)
Fixpoint map2 (xs ys : list (value A)) {struct ys} : list B :=
  match xs, ys with
  | x :: xs', y :: ys' => f x y :: map2 xs' ys'
  | _, _ => []
  end.
End Map2.

Section Leaves.
Context {A : Type}.

(** The scalar labels of [Y], in order, at whatever depth they are. *)
Fixpoint labels (Y : value A) : list (value A) :=
  match Y with
  | Seq ys => concat (map labels ys)
  | Atom _ => [Y]
  end.

(** The parts of [X] that lie where [Y] has its scalar labels, in order. *)
Fixpoint samples (X Y : value A) {struct Y} : list (value A) :=
  match Y with
  | Seq ys => concat (map2 samples (items X) ys)
  | Atom _ => [X]
  end.
End Leaves.

Module Learner.
Section Methods.
Context {A V M : Type} `{Vectorizer A V} `{Model A M}.

(** [obj.fit_transform(X, Y)] on a local object, without [pred]. *)
Definition obj_fit_transform_plain (obj : V) (X Y : value A)
  : prog (world A V M) (V * (value A * value A)) :=
  log (CallFitTransform X Y false) ;;;
  lift (fit_transform obj X Y false).

(** *** Learner.transform *)
(** [Y] is what the caller passes; left out it is [None], a scalar. *)
Definition transform (X Y : value A)
  : prog (world A V M) (value A * value A) :=
  obj <~ self_clone ;;
  '(obj1, (tX, tY)) <~ obj_fit_transform_plain obj X Y ;;
  ret (tX, tY).

(** *** Learner.fit_transform *)
(** The attributes are returned as they are read, [None] included. *)
Definition fit_transform (X Y : value A)
  : prog (world A V M) (option (value A) * option (value A)) :=
  fit X Y ;;;
  s <~ get_self ;;
  ret (_X s, _Y s).

(** *** Learner.__init__ *)
(** [composite] is the constructor [CompositeTransform], which wraps the
    transform it is given; the three cached attributes are not assigned, so
    they read as the class defaults. *)
Definition init (composite : V -> V) (transform : V) (model : M)
  : learner A V M :=
  {| vectorizer := composite transform; model := model;
     _X := None; _Y := None; _Z := None |}.
End Methods.
End Learner.

(** ** Learner.save, and loading what was saved *)

Section Persistence.
Context {A V M : Type} `{Vectorizer A V}.

(** A file is a pickle of an instance, or something [joblib.load] cannot
    read; the file system maps the paths that exist to their files. *)
Inductive file : Type :=
| Pickle (o : learner A V M)
| Garbage.

Definition files : Type := string -> option file.

(** The environment of [save]: where [joblib.dump] can write, the
    constructor [CompositeTransform], [os.path.basename], [os.path.join]
    and [session.models]. *)
Variable writable : string -> bool.
Variable composite : V -> V.
Variable basename : string -> string.
Variable path_join : string -> string -> string.
Variable session_models : string.

(** [joblib.dump(o, path)]: the file at [path] becomes a pickle of [o], or
    the write fails and nothing changes. *)
Definition dump (o : learner A V M) (path : string) : prog files unit :=
  fun fs =>
    if writable path then
      (Ok tt, fun p => if String.eqb p path then Some (Pickle o) else fs p)
    else (Raise (Foreign "IOError"), fs).

Definition save (s : learner A V M) (filename : string) (archive : bool)
  : prog files unit :=
  let filename :=
    if archive then path_join session_models (basename filename ++ ".pkl")
    else filename in
  dump (Learner.init composite (clone (vectorizer s)) (model s)) filename.

(** [os.path.exists] and [joblib.load] on a file system. *)
Definition exists_in (fs : files) (path : string) : bool :=
  match fs path with Some _ => true | None => false end.

Definition read (fs : files) (path : string) : result (learner A V M) :=
  match fs path with
  | Some (Pickle o) => Ok o
  | Some Garbage => Raise (Foreign "UnpicklingError")
  | None => Raise (Foreign "IOError")
  end.

(** [Learner.load] on a file system. *)
Definition load_in (fs : files) (filename : string)
  : result (option (learner A V M)) :=
  load (exists_in fs) path_join (read fs) session_models filename.
End Persistence.

Arguments file A V M : clear implicits.
Arguments files A V M : clear implicits.

(** ** More instances to run the methods on *)

Module Bench.

(** A model whose [fit] raises. *)
Definition stubborn : Model Z unit := {|
  model_fit := fun m _ _ => Raise (Foreign "ValueError");
  model_predict := fun m X => Ok X
|}.

(** An empty file system where everything can be written, and one with a
    file in the working directory that is no pickle. *)
Definition empty : files Z unit unit := fun _ => None.

Definition shadowed : files Z unit unit :=
  fun p => if String.eqb p "svm" then Some Garbage else None.

Definition anywhere (path : string) : bool := true.

(** The last component of a path written with slashes. *)
Fixpoint last_component (acc path : string) : string :=
  match path with
  | EmptyString => acc
  | String c rest =>
      if Ascii.eqb c "/"%char then last_component EmptyString rest
      else last_component (acc ++ String c EmptyString) rest
  end.

Definition basename (path : string) : string :=
  last_component EmptyString path.

Definition wrap (v : unit) : unit := v.

(** Two views of a file system that has one file, in the models directory:
    an unreadable pickle, or a configuration file. *)
Definition only_pkl (path : string) : bool :=
  String.eqb path "models/svm.pkl".

Definition only_yml (path : string) : bool :=
  String.eqb path "models/svm.yml".

(** Two levels of nesting around the documented example. *)
Definition deepX : value Z := Seq [Demo.X0].
Definition deepY : value Z := Seq [Demo.Y0].

End Bench.

(** * Properties *)

(** ** Running the code on the documented example *)

Example flatten_nested_example :
  flatten Demo.X0 Demo.Y0
  = Ok (Triple [Demo.a1; Demo.a2; Demo.b1]
               [Atom 0%Z; Atom 1%Z; Atom 1%Z] [2%Z; 1%Z]).
Proof. reflexivity. Qed.

Example flatten_scalar_leaves_example :
  flatten (Seq [Atom 1%Z; Atom 2%Z]) (Seq [Atom 0%Z; Atom 1%Z])
  = Raise TypeError.
Proof. reflexivity. Qed.

(** ** The base case of [flatten] *)

Section FlattenFacts.
Context {A : Type}.
Implicit Types (X Y x y : value A) (xs ys fX fY : list (value A)).

Lemma len_Seq xs : len (Seq xs) = Ok (size (Seq xs)).
Proof. reflexivity. Qed.

Lemma is_seq_inv x : is_seq x = true -> x = Seq (items x).
Proof. destruct x; simpl; [discriminate | reflexivity]. Qed.

Lemma is_atom_inv y : is_atom y = true -> exists a, y = Atom a.
Proof. destruct y; simpl; [eauto | discriminate]. Qed.

Lemma all2_length (f : value A -> value A -> bool) xs ys :
  all2 f xs ys = true -> length xs = length ys.
Proof.
  revert xs; induction ys as [|y ys IH]; intros [|x xs]; simpl;
    try discriminate; auto.
  intros E. apply andb_true_iff in E as [_ E]. f_equal. now apply IH.
Qed.

(** One round of the loop over a flat [Y]: every [Y[idx]] is a scalar, so
    the recursive call is the base case, and what is appended to [fZ] is
    the length of the feature vector [X[idx]]. *)
Lemma flatten_loop_flat xs : forall ys fX fY fZ,
  all2 matching xs ys = true ->
  forallb is_atom ys = true ->
  flatten_loop flatten xs ys fX fY fZ
  = Ok (Triple (fX ++ xs) (fY ++ ys) (fZ ++ map size xs)).
Proof.
  induction xs as [|x xs IH]; intros [|y ys] fX fY fZ; simpl;
    try discriminate.
  - intros _ _. now rewrite !app_nil_r.
  - intros M F.
    apply andb_true_iff in M as [Mx M], F as [Fy F].
    apply is_atom_inv in Fy as [a ->]. simpl in Mx.
    rewrite (is_seq_inv _ Mx). simpl.
    rewrite IH by assumption.
    now rewrite <- !app_assoc.
Qed.

Lemma flatten_flat X Y :
  matching X Y = true -> flat_seq Y = true ->
  flatten X Y = Ok (Triple (items X) (items Y) (map size (items X))).
Proof.
  destruct Y as [a|ys]; [discriminate|].
  destruct X as [b|xs]; [discriminate|]. simpl.
  intros M F. now rewrite flatten_loop_flat.
Qed.

(** C1 (as amended).  The base case of [flatten] is taken when the response
    [Y] is itself a scalar: the result is then the pair [([X], [Y])], with no
    group sizes.  A flat sequence [Y] of scalars is a sequence, so it goes
    through the loop: with [X] a sequence of as many feature vectors,
    [flatten] returns [X] and [Y] as they are, and a [Z] that holds the
    length of every feature vector, one entry per element. *)
Theorem flatten_base_case :
  (forall X (a : A), flatten X (Atom a) = Ok (Pair [X] [Atom a])) /\
  (forall X Y,
      matching X Y = true -> flat_seq Y = true ->
      flatten X Y = Ok (Triple (items X) (items Y) (map size (items X)))
      /\ X = Seq (items X) /\ Y = Seq (items Y)
      /\ length (map size (items X)) = length (items Y)).
Proof.
  split; [reflexivity|].
  intros X Y M F. split; [now apply flatten_flat|].
  destruct Y as [a|ys]; [discriminate|].
  destruct X as [b|xs]; [discriminate|]. simpl in *.
  repeat split. rewrite length_map. now apply all2_length in M.
Qed.

(** ** The guard of [inverse_flatten] *)

Lemma regroup_cuts xs ys fZ : forall cidx tX tY,
  regroup (Seq xs) (Seq ys) fZ cidx tX tY
  = Ok (tX ++ map Seq (cuts xs fZ cidx), tY ++ map Seq (cuts ys fZ cidx)).
Proof.
  induction fZ as [|z fZ IH]; intros cidx tX tY; simpl.
  - now rewrite !app_nil_r.
  - rewrite IH. now rewrite <- !app_assoc.
Qed.

Lemma inverse_flatten_regroups xs ys fZ :
  (length fZ < length ys)%nat ->
  inverse_flatten (Seq xs) (Seq ys) fZ
  = Ok (Seq (map Seq (cuts xs fZ 0)), Seq (map Seq (cuts ys fZ 0))).
Proof.
  intros L. unfold inverse_flatten. simpl.
  destruct (Z.ltb_spec (Z.of_nat (length fZ)) (Z.of_nat (length ys))); [|lia].
  now rewrite regroup_cuts.
Qed.

(** C2 (as amended).  [inverse_flatten] returns [X] and [Y] unchanged on the
    [else] path of its guard, that is whenever [len(Z) >= len(Y)].  With an
    empty [Z] this is the case for an empty [Y] only: for a [Y] that is not
    empty the guard holds, the loop runs zero times, and two empty sequences
    are returned. *)
Theorem inverse_flatten_noop :
  (forall X ys fZ,
      (length ys <= length fZ)%nat ->
      inverse_flatten X (Seq ys) fZ = Ok (X, Seq ys)) /\
  (forall X y ys,
      inverse_flatten X (Seq (y :: ys)) [] = Ok (Seq [], Seq [])).
Proof.
  split.
  - intros X ys fZ L. unfold inverse_flatten. simpl.
    destruct (Z.ltb_spec (Z.of_nat (length fZ)) (Z.of_nat (length ys)));
      [lia | reflexivity].
  - intros X y ys. unfold inverse_flatten. simpl len. simpl bind.
    destruct (Z.ltb_spec (Z.of_nat (@length Z [])) (Z.of_nat (length (y :: ys))))
      as [_|L]; [reflexivity|].
    simpl length in L. lia.
Qed.
End FlattenFacts.

(** ** Slices cut by a cursor *)

Section SliceFacts.
Context {T : Type}.
Implicit Types (l : list T).

Lemma firstn_firstn_skipn (a b : nat) l :
  firstn a l ++ firstn b (skipn a l) = firstn (a + b) l.
Proof.
  revert l; induction a as [|a IH]; intros [|x l]; simpl;
    try reflexivity.
  - now rewrite firstn_nil.
  - now rewrite IH.
Qed.

(** With a cursor and a group size that are not negative, the slice
    [l[cidx:cidx+z]] is the next [z] elements after the first [cidx]; past
    the end of [l] it is shorter, or empty. *)
Lemma slice_cursor l (cidx z : Z) :
  (0 <= cidx)%Z -> (0 <= z)%Z ->
  slice l cidx (cidx + z) = firstn (Z.to_nat z) (skipn (Z.to_nat cidx) l).
Proof.
  intros Hc Hz. unfold slice, adjust_index.
  destruct (Z.ltb_spec cidx 0); [lia|].
  destruct (Z.ltb_spec (cidx + z) 0); [lia|].
  destruct (Z_le_gt_dec (Z.of_nat (length l)) cidx) as [Far|Near].
  - rewrite !(skipn_all2 l) by lia. now rewrite !firstn_nil.
  - replace (Z.min cidx (Z.of_nat (length l))) with cidx by lia.
    destruct (Z_le_gt_dec (cidx + z) (Z.of_nat (length l))) as [In|Out].
    + f_equal. lia.
    + rewrite !firstn_all2; [reflexivity | |]; rewrite length_skipn; lia.
Qed.
End SliceFacts.

Section RegroupFacts.
Context {A : Type}.
Implicit Types (X Y x y : value A) (xs ys l : list (value A)).

Lemma length_cuts l fZ : forall cidx, length (cuts l fZ cidx) = length fZ.
Proof. induction fZ; intros; simpl; auto. Qed.

Lemma total_nonneg fZ : Forall (fun z => 0 <= z)%Z fZ -> (0 <= total fZ)%Z.
Proof. induction 1; simpl; lia. Qed.

(** The groups cut from the cursor on, put end to end, are the next
    [sum(Z)] elements after the cursor. *)
Lemma concat_cuts l fZ : forall cidx,
  Forall (fun z => 0 <= z)%Z fZ -> (0 <= cidx)%Z ->
  concat (cuts l fZ cidx)
  = firstn (Z.to_nat (total fZ)) (skipn (Z.to_nat cidx) l).
Proof.
  induction fZ as [|z fZ IH]; intros cidx Hz Hc; simpl.
  - reflexivity.
  - inversion Hz as [|? ? Hz0 Hz']; subst.
    pose proof (total_nonneg Hz') as Ht.
    rewrite IH by (assumption || lia).
    rewrite slice_cursor by assumption.
    replace (Z.to_nat (cidx + z)) with (Z.to_nat z + Z.to_nat cidx)%nat by lia.
    rewrite <- skipn_skipn, firstn_firstn_skipn.
    f_equal. lia.
Qed.

Lemma chain_groups (gs : list (list (value A))) :
  chain (map Seq gs) = Ok (concat gs).
Proof. induction gs as [|g gs IH]; simpl; [|rewrite IH]; reflexivity. Qed.

(** Cutting a concatenation by the sizes of its parts gives the parts
    back. *)
Lemma cuts_concat (gs : list (list (value A))) : forall l cidx rest,
  (0 <= cidx)%Z ->
  skipn (Z.to_nat cidx) l = concat gs ++ rest ->
  cuts l (map (fun g => Z.of_nat (length g)) gs) cidx = gs.
Proof.
  induction gs as [|g gs IH]; intros l cidx rest Hc E; simpl.
  - reflexivity.
  - rewrite slice_cursor by lia. rewrite E. simpl.
    rewrite <- app_assoc, Nat2Z.id, firstn_app, firstn_all, Nat.sub_diag.
    simpl. rewrite app_nil_r. f_equal.
    apply IH with (rest := rest); [lia|].
    replace (Z.to_nat (cidx + Z.of_nat (length g)))
      with (length g + Z.to_nat cidx)%nat by lia.
    rewrite <- skipn_skipn, E. simpl.
    now rewrite <- app_assoc, skipn_app, skipn_all, Nat.sub_diag.
Qed.
End RegroupFacts.

(** ** One level of nesting *)

Section NestedOnce.
Context {A : Type}.
Implicit Types (X Y x y : value A) (xs ys fX fY : list (value A)).

Lemma matching_flat_inv x y :
  matching x y = true -> flat_seq y = true ->
  x = Seq (items x) /\ y = Seq (items y)
  /\ length (items x) = length (items y).
Proof.
  destruct y as [a|yl]; [discriminate|].
  destruct x as [b|xl]; [discriminate|]. simpl.
  intros M _. repeat split. now apply all2_length in M.
Qed.

(** The loop over a [Y] whose elements are flat: every recursive call
    returns the group [X[idx]] as it is, and [fZ] gets its length. *)
Lemma flatten_loop_nested xs : forall ys fX fY fZ,
  all2 matching xs ys = true ->
  forallb flat_seq ys = true ->
  flatten_loop flatten xs ys fX fY fZ
  = Ok (Triple (fX ++ concat (map items xs)) (fY ++ concat (map items ys))
               (fZ ++ map size xs)).
Proof.
  induction xs as [|x xs IH]; intros [|y ys] fX fY fZ;
    cbn [all2 forallb]; try discriminate.
  - intros _ _. simpl. now rewrite !app_nil_r.
  - intros M F.
    apply andb_true_iff in M as [Mx M], F as [Fy F].
    cbn [flatten_loop]. rewrite (flatten_flat _ _ Mx Fy). cbn [bind dat0 dat1].
    destruct (matching_flat_inv _ _ Mx Fy) as (Ex & _ & _).
    rewrite Ex at 1. rewrite len_Seq. cbn [bind].
    rewrite IH by assumption. cbn [map concat].
    rewrite <- Ex. now rewrite <- !app_assoc.
Qed.

Lemma flatten_nested_once X Y :
  matching X Y = true -> nested_once Y = true ->
  flatten X Y
  = Ok (Triple (concat (map items (items X))) (concat (map items (items Y)))
               (map size (items X))).
Proof.
  destruct Y as [a|ys]; [discriminate|].
  destruct X as [b|xs]; [discriminate|]. simpl.
  intros M F. now rewrite flatten_loop_nested.
Qed.

Lemma sizes_nonneg xs : Forall (fun z => 0 <= z)%Z (map size xs).
Proof. induction xs; simpl; constructor; [unfold size; lia | assumption]. Qed.

Lemma total_sizes xs :
  total (map size xs) = Z.of_nat (length (concat (map items xs))).
Proof.
  induction xs as [|x xs IH]; simpl; [reflexivity|].
  rewrite length_app, IH. unfold size. lia.
Qed.

Lemma parallel_groups_length xs : forall ys,
  all2 matching xs ys = true -> forallb flat_seq ys = true ->
  length (concat (map items xs)) = length (concat (map items ys))
  /\ map size xs = map size ys
  /\ map Seq (map items xs) = xs /\ map Seq (map items ys) = ys.
Proof.
  induction xs as [|x xs IH]; intros [|y ys]; cbn [all2 forallb];
    try discriminate.
  - intros _ _. repeat split.
  - intros M F.
    apply andb_true_iff in M as [Mx M], F as [Fy F].
    destruct (matching_flat_inv _ _ Mx Fy) as (Ex & Ey & L).
    destruct (IH ys M F) as (L' & S' & Rx & Ry).
    cbn [map concat]. rewrite !length_app, L, L', S', Rx, Ry.
    unfold size. rewrite L, <- Ex, <- Ey. repeat split.
Qed.

(** C3 (as amended).  For [X] and [Y] of matching ragged shape with exactly
    one level of nesting (every [Y[i]] a flat sequence of scalars),
    [flatten] returns a [Z] whose sum is the length of the flattened [X],
    which is the length of the flattened [Y]. *)
Theorem flatten_sizes_sum X Y :
  matching X Y = true -> nested_once Y = true ->
  exists fX fY fZ,
    flatten X Y = Ok (Triple fX fY fZ)
    /\ total fZ = Z.of_nat (length fX)
    /\ length fX = length fY.
Proof.
  intros M N. rewrite (flatten_nested_once _ _ M N).
  do 3 eexists. split; [reflexivity|]. split; [apply total_sizes|].
  destruct Y as [a|ys]; [discriminate|].
  destruct X as [b|xs]; [discriminate|]. simpl in *.
  now apply parallel_groups_length.
Qed.

(** After one level of nesting, and when the guard of [inverse_flatten]
    holds, regrouping gives back [X] and [Y] themselves. *)
Lemma inverse_flatten_flatten X Y fX fY fZ :
  matching X Y = true -> nested_once Y = true ->
  flatten X Y = Ok (Triple fX fY fZ) ->
  (length fZ < length fY)%nat ->
  inverse_flatten (Seq fX) (Seq fY) fZ = Ok (X, Y).
Proof.
  intros M N E L. rewrite (flatten_nested_once _ _ M N) in E.
  injection E as <- <- <-.
  rewrite inverse_flatten_regroups by assumption.
  destruct Y as [a|ys]; [discriminate|].
  destruct X as [b|xs]; [discriminate|]. simpl in *.
  destruct (parallel_groups_length _ _ M N) as (_ & S' & Rx & Ry).
  rewrite S' at 2.
  assert (Sz : forall l : list (value A),
             map size l = map (fun g => Z.of_nat (length g)) (map items l)).
  { intros l. now rewrite map_map. }
  rewrite !Sz.
  rewrite (@cuts_concat _ (map items xs) (concat (map items xs)) 0%Z [])
    by (simpl; rewrite ?app_nil_r; (lia || reflexivity)).
  rewrite (@cuts_concat _ (map items ys) (concat (map items ys)) 0%Z [])
    by (simpl; rewrite ?app_nil_r; (lia || reflexivity)).
  now rewrite Rx, Ry.
Qed.

(** C4 (as amended).  For [X] and [Y] with exactly one level of nesting,
    when [flatten] leaves strictly fewer groups than flattened elements
    ([len(Z) < len(flatY)], the guard of [inverse_flatten]),
    [inverse_flatten] on the output of [flatten] returns groups whose
    concatenation is the flattened sequence, and there are [len(Z)] groups
    of [Y]. *)
Theorem regroup_after_flatten X Y fX fY fZ :
  matching X Y = true -> nested_once Y = true ->
  flatten X Y = Ok (Triple fX fY fZ) ->
  (length fZ < length fY)%nat ->
  exists gX gY,
    inverse_flatten (Seq fX) (Seq fY) fZ = Ok (Seq gX, Seq gY)
    /\ chain gX = Ok fX /\ chain gY = Ok fY
    /\ length gY = length fZ.
Proof.
  intros M N E L.
  destruct (flatten_sizes_sum _ _ M N) as (fX' & fY' & fZ' & E' & S' & L').
  rewrite E in E'. injection E' as <- <- <-.
  assert (Hz : Forall (fun z => 0 <= z)%Z fZ).
  { rewrite (flatten_nested_once _ _ M N) in E. injection E as _ _ <-.
    apply sizes_nonneg. }
  rewrite inverse_flatten_regroups by assumption.
  do 2 eexists. split; [reflexivity|].
  rewrite !chain_groups, !concat_cuts by (assumption || lia).
  rewrite length_map, length_cuts. simpl skipn.
  rewrite !firstn_all2 by lia. repeat split.
Qed.
End NestedOnce.

(** ** Regrouping by arbitrary sizes *)

Section Totality.
Context {A : Type}.
Implicit Types (xs ys : list (value A)).

(** C10.  For [X] and [Y] of equal length and group sizes [Z] that are not
    negative, with [len(Z) < len(Y)], [inverse_flatten] returns: there are
    [len(Z)] groups on each side, and put end to end they are the first
    [min(sum(Z), len(Y))] elements of [X], and of [Y]; whatever comes after
    is in no group.  Nothing requires [sum(Z) = len(Y)]. *)
Theorem inverse_flatten_total xs ys fZ :
  length xs = length ys ->
  Forall (fun z => 0 <= z)%Z fZ ->
  (length fZ < length ys)%nat ->
  let n := Z.to_nat (Z.min (total fZ) (Z.of_nat (length ys))) in
  exists gX gY,
    inverse_flatten (Seq xs) (Seq ys) fZ = Ok (Seq gX, Seq gY)
    /\ length gX = length fZ /\ length gY = length fZ
    /\ chain gX = Ok (firstn n xs) /\ chain gY = Ok (firstn n ys)
    /\ xs = firstn n xs ++ skipn n xs /\ ys = firstn n ys ++ skipn n ys.
Proof.
  intros E Hz L n.
  rewrite inverse_flatten_regroups by assumption.
  do 2 eexists. split; [reflexivity|].
  rewrite !length_map, !length_cuts, !chain_groups.
  rewrite !concat_cuts by (assumption || lia). simpl skipn.
  rewrite !firstn_skipn.
  pose proof (total_nonneg Hz) as Ht.
  assert (F : forall l : list (value A), length l = length ys ->
                firstn (Z.to_nat (total fZ)) l = firstn n l).
  { intros l El. subst n.
    destruct (Z_le_gt_dec (total fZ) (Z.of_nat (length ys))).
    - f_equal. lia.
    - rewrite !firstn_all2 by lia. reflexivity. }
  rewrite (F xs E), (F ys eq_refl). repeat split.
Qed.
End Totality.

(** ** The documented example *)

(** C5.  With [a1], [a2], [b1] any three feature vectors,
    [X = [[a1,a2],[b1]]] and [Y = [[0,1],[1]]] flatten to
    [flatX = [a1,a2,b1]], [flatY = [0,1,1]] and [Z = [2,1]]; and
    [inverse_flatten] of [flatX], the predictions [[9,8,7]] and [Z] groups
    the predictions as [[[9,8],[7]]] (and [flatX] as [X]). *)
Theorem documented_example (a1 a2 b1 : list (value Z)) :
  flatten (Seq [Seq [Seq a1; Seq a2]; Seq [Seq b1]])
          (Seq [Seq [Atom 0%Z; Atom 1%Z]; Seq [Atom 1%Z]])
  = Ok (Triple [Seq a1; Seq a2; Seq b1]
               [Atom 0%Z; Atom 1%Z; Atom 1%Z] [2%Z; 1%Z])
  /\ inverse_flatten (Seq [Seq a1; Seq a2; Seq b1])
                     (Seq [Atom 9%Z; Atom 8%Z; Atom 7%Z]) [2%Z; 1%Z]
     = Ok (Seq [Seq [Seq a1; Seq a2]; Seq [Seq b1]],
           Seq [Seq [Atom 9%Z; Atom 8%Z]; Seq [Atom 7%Z]]).
Proof. split; reflexivity. Qed.

(** ** The methods of the instance *)

Section LearnerFacts.
Context {A V M : Type} `{Vectorizer A V} `{Model A M}.
Implicit Types (s : learner A V M) (w : world A V M) (X Y : value A).

(** C6.  On an instance whose cached [_Y] is still [None], [predict] raises
    an [AssertionError] that says the model has not been fit; the world is
    left as it was, so no call has reached the model, nor the vectorizer. *)
Theorem predict_unfit w X :
  _Y (self w) = None ->
  predict X w
  = (Raise (AssertionError
              "Model has not been fit! Cannot make predictions for new data."),
     w).
Proof.
  intros E. unfold predict, pbind, get_self. now rewrite E.
Qed.

Lemma pbind_returns {T U} (c : prog (world A V M) T)
      (k : T -> prog (world A V M) U) w v w' :
  c w = (Ok v, w') -> pbind c k w = k v w'.
Proof. intros E. unfold pbind. now rewrite E. Qed.

(** After a [fit] that returns, the three cached attributes are set, to the
    output of [flatten] on the transformed data. *)
Lemma fit_returns s cs X Y v1 tX tY fX fY fZ m1 :
  fit_transform (vectorizer s) X Y false = Ok (v1, (tX, tY)) ->
  flatten tX tY = Ok (Triple fX fY fZ) ->
  model_fit (model s) (Seq fX) (Seq fY) = Ok m1 ->
  fit X Y {| self := s; calls := cs |}
  = (Ok tt,
     {| self := {| vectorizer := v1; model := m1; _X := Some (Seq fX);
                   _Y := Some (Seq fY); _Z := Some fZ |};
        calls := cs ++ [CallFitTransform X Y false;
                        CallModelFit (Seq fX) (Seq fY)] |}).
Proof.
  intros Et Ef Em.
  unfold fit, self_fit_transform, self_model_fit, pbind, log, get_self,
    put_self, lift, ret. simpl.
  rewrite Et. simpl. rewrite Ef. simpl. rewrite Em.
  now rewrite <- app_assoc.
Qed.

(** A [fit] whose model raises has already stored the three attributes:
    [_Y] is set although [fit] did not return. *)
Lemma fit_raises_in_model s cs X Y v1 tX tY fX fY fZ e :
  fit_transform (vectorizer s) X Y false = Ok (v1, (tX, tY)) ->
  flatten tX tY = Ok (Triple fX fY fZ) ->
  model_fit (model s) (Seq fX) (Seq fY) = Raise e ->
  fit X Y {| self := s; calls := cs |}
  = (Raise e,
     {| self := {| vectorizer := v1; model := model s; _X := Some (Seq fX);
                   _Y := Some (Seq fY); _Z := Some fZ |};
        calls := cs ++ [CallFitTransform X Y false;
                        CallModelFit (Seq fX) (Seq fY)] |}).
Proof.
  intros Et Ef Em.
  unfold fit, self_fit_transform, self_model_fit, pbind, log, get_self,
    put_self, lift, ret. simpl.
  rewrite Et. simpl. rewrite Ef. simpl. rewrite Em.
  now rewrite <- app_assoc.
Qed.

(** C9.  When [predict] gets as far as the inverse transform, the response
    it hands to it is [pY], the flat output of the model, and the [gY] that
    its own [inverse_flatten] call returned is used nowhere; when
    [fit_predict] gets there, it hands over the regrouped [gY].  In both the
    result is the second component of what the inverse transform returns. *)
Theorem inverse_transform_arguments :
  (forall s cs X sY obj1 tX tY fX fY fZ pY gX gY,
      _Y s = Some sY ->
      fit_transform (clone (vectorizer s)) X sY true = Ok (obj1, (tX, tY)) ->
      flatten tX tY = Ok (Triple fX fY fZ) ->
      model_predict (model s) (Seq fX) = Ok pY ->
      inverse_flatten (Seq fX) pY fZ = Ok (gX, gY) ->
      calls (snd (predict X {| self := s; calls := cs |}))
      = cs ++ [CallClone; CallFitTransform X sY true;
               CallModelPredict (Seq fX); CallInverseFitTransform gX pY]
      /\ fst (predict X {| self := s; calls := cs |})
         = ('(_, (_, rY)) <- inverse_fit_transform obj1 gX pY ;; Ok rY)) /\
  (forall s cs X Y v1 tX tY fX fY fZ m1 pY gX gY,
      fit_transform (vectorizer s) X Y false = Ok (v1, (tX, tY)) ->
      flatten tX tY = Ok (Triple fX fY fZ) ->
      model_fit (model s) (Seq fX) (Seq fY) = Ok m1 ->
      model_predict m1 (Seq fX) = Ok pY ->
      inverse_flatten (Seq fX) pY fZ = Ok (gX, gY) ->
      calls (snd (fit_predict X Y {| self := s; calls := cs |}))
      = cs ++ [CallFitTransform X Y false; CallModelFit (Seq fX) (Seq fY);
               CallModelPredict (Seq fX); CallInverseFitTransform gX gY]
      /\ fst (fit_predict X Y {| self := s; calls := cs |})
         = ('(_, (_, rY)) <- inverse_fit_transform v1 gX gY ;; Ok rY)).
Proof.
  split.
  - intros s cs X sY obj1 tX tY fX fY fZ pY gX gY Ey Et Ef Ep Ei.
    unfold predict, self_clone, obj_fit_transform, self_model_predict,
      obj_inverse_fit_transform, pbind, log, get_self, lift, ret. simpl.
    rewrite Ey. simpl. rewrite Et. simpl. rewrite Ef. simpl.
    rewrite Ep, Ei. simpl.
    rewrite <- !app_assoc. simpl.
    destruct (inverse_fit_transform obj1 gX pY) as [[obj2 [rX rY]]|e];
      simpl; split; reflexivity.
  - intros s cs X Y v1 tX tY fX fY fZ m1 pY gX gY Et Ef Em Ep Ei.
    unfold fit_predict.
    rewrite (@pbind_returns _ _ (fit X Y) _ _ _ _
               (@fit_returns s cs _ _ _ _ _ _ _ _ _ Et Ef Em)).
    unfold self_model_predict, self_inverse_fit_transform, pbind, log,
      get_self, put_self, lift, ret. simpl.
    rewrite Ep, Ei. simpl.
    rewrite <- !app_assoc. simpl.
    destruct (inverse_fit_transform v1 gX gY) as [[v2 [rX rY]]|e];
      simpl; split; reflexivity.
Qed.
End LearnerFacts.

(** ** Loading *)

Section LoadFacts.
Variable Obj : Type.
Variable path_exists : string -> bool.
Variable path_join : string -> string -> string.
Variable joblib_load : string -> result Obj.
Variable session_models : string.

(** C7.  When there is no file at [filename], none at
    [<models>/<filename>.pkl] and none at [<models>/<filename>.yml], [load]
    raises an [AssertionError] that says the model cannot be loaded. *)
Theorem load_missing (filename : string) :
  path_exists filename = false ->
  path_exists (path_join session_models (filename ++ ".pkl")) = false ->
  path_exists (path_join session_models (filename ++ ".yml")) = false ->
  load path_exists path_join joblib_load session_models filename
  = Raise (AssertionError "Cannot load model. Pickle file does not exist!").
Proof.
  intros E1 E2 E3. unfold load. now rewrite E1, E2, E3.
Qed.

(** C8.  When [filename] exists and reading the pickle raises, whatever the
    exception, [load] does not raise: it returns what [from_config] returns
    for that file, which is [None]. *)
Theorem load_swallows_unpickling_error (filename : string) (e : exn) :
  path_exists filename = true ->
  joblib_load filename = Raise e ->
  load path_exists path_join joblib_load session_models filename
  = from_config Obj filename
  /\ load path_exists path_join joblib_load session_models filename
     = Ok None.
Proof.
  intros E1 E2. unfold load. now rewrite E1, E2.
Qed.
End LoadFacts.

(** * The properties on concrete data *)

Module Cases.
Import Demo.

(** *** Flat responses *)

(** A flat [Y] of three labels, with three feature vectors of length 2: the
    result is a triple, not the pair [([X], [Y])], and [Z] is [[2, 2, 2]]. *)
Lemma flatten_flat_not_base :
  flat_seq (Seq flatY) = true
  /\ flatten (Seq flatX) (Seq flatY)
     = Ok (Triple flatX flatY [2%Z; 2%Z; 2%Z])
  /\ flatten (Seq flatX) (Seq flatY) <> Ok (Pair [Seq flatX] [Seq flatY]).
Proof. repeat split. discriminate. Qed.

Lemma flatten_base_case_holds :
  flatten (Seq flatX) (Atom 0%Z) = Ok (Pair [Seq flatX] [Atom 0%Z])
  /\ (flatten (Seq flatX) (Seq flatY)
      = Ok (Triple (items (Seq flatX)) (items (Seq flatY))
                   (map size (items (Seq flatX))))
      /\ Seq flatX = Seq (items (Seq flatX))
      /\ Seq flatY = Seq (items (Seq flatY))
      /\ length (map size (items (Seq flatX))) = length (items (Seq flatY))).
Proof.
  split.
  - apply (proj1 (@flatten_base_case Z)).
  - apply (proj2 (@flatten_base_case Z)); reflexivity.
Defined.

(** *** The guard of [inverse_flatten] *)

(** With an empty [Z] and one element on each side, the output is two empty
    sequences. *)
Lemma inverse_flatten_empty_sizes :
  inverse_flatten (Seq [Atom 1%Z]) (Seq [Atom 2%Z]) []
  = Ok (Seq [], Seq [])
  /\ inverse_flatten (Seq [Atom 1%Z]) (Seq [Atom 2%Z]) []
     <> Ok (Seq [Atom 1%Z], Seq [Atom 2%Z]).
Proof. split; [reflexivity | discriminate]. Qed.

Lemma inverse_flatten_noop_holds :
  inverse_flatten (Seq flatX) (Seq predicted) [2%Z; 2%Z; 2%Z]
  = Ok (Seq flatX, Seq predicted)
  /\ inverse_flatten (Seq [Atom 1%Z]) (Seq [Atom 2%Z]) []
     = Ok (Seq [], Seq []).
Proof.
  split.
  - apply (proj1 (@inverse_flatten_noop Z)). simpl. lia.
  - apply (proj2 (@inverse_flatten_noop Z)).
Defined.

(** *** Group sizes *)

(** Two levels of nesting: the one top-level group has two elements, and
    three samples are flattened. *)
Lemma flatten_sizes_two_levels :
  matching (Seq [X0]) (Seq [Y0]) = true
  /\ nested (Seq [Y0]) = true
  /\ flatten (Seq [X0]) (Seq [Y0]) = Ok (Triple flatX flatY [2%Z])
  /\ total [2%Z] = 2%Z
  /\ length flatX = 3%nat /\ length flatY = 3%nat.
Proof. repeat split. Qed.

Lemma flatten_sizes_sum_holds :
  matching X0 Y0 = true /\ nested_once Y0 = true
  /\ exists fX fY fZ,
      flatten X0 Y0 = Ok (Triple fX fY fZ)
      /\ total fZ = Z.of_nat (length fX)
      /\ length fX = length fY.
Proof.
  split; [reflexivity|]. split; [reflexivity|].
  apply (@flatten_sizes_sum Z X0 Y0); reflexivity.
Defined.

(** *** Regrouping what [flatten] returned *)

(** One sample in every group: [Z] is as long as the flattened [Y], the
    guard fails, and the flat sequences come back as they are; the labels
    are no groups, and the feature vectors put end to end are not the
    flattened [X].  An empty group next to a group of one: the guard fails
    again, and one label comes back where [Z] has two entries. *)
Lemma regroup_one_sample_per_group :
  (matching (Seq [Seq [a1]; Seq [b1]])
            (Seq [Seq [Atom 0%Z]; Seq [Atom 1%Z]]) = true
   /\ nested_once (Seq [Seq [Atom 0%Z]; Seq [Atom 1%Z]]) = true
   /\ flatten (Seq [Seq [a1]; Seq [b1]]) (Seq [Seq [Atom 0%Z]; Seq [Atom 1%Z]])
      = Ok (Triple [a1; b1] [Atom 0%Z; Atom 1%Z] [1%Z; 1%Z])
   /\ inverse_flatten (Seq [a1; b1]) (Seq [Atom 0%Z; Atom 1%Z]) [1%Z; 1%Z]
      = Ok (Seq [a1; b1], Seq [Atom 0%Z; Atom 1%Z])
   /\ chain [Atom 0%Z; Atom 1%Z] = Raise TypeError
   /\ chain [a1; b1] = Ok [Atom 1%Z; Atom 2%Z; Atom 5%Z; Atom 6%Z])
  /\
  (matching (Seq [Seq [a1]; Seq []]) (Seq [Seq [Atom 0%Z]; Seq []]) = true
   /\ nested_once (Seq [Seq [Atom 0%Z]; Seq []]) = true
   /\ flatten (Seq [Seq [a1]; Seq []]) (Seq [Seq [Atom 0%Z]; Seq []])
      = Ok (Triple [a1] [Atom 0%Z] [1%Z; 0%Z])
   /\ inverse_flatten (Seq [a1]) (Seq [Atom 0%Z]) [1%Z; 0%Z]
      = Ok (Seq [a1], Seq [Atom 0%Z])
   /\ length [Atom 0%Z] = 1%nat /\ length [1%Z; 0%Z] = 2%nat).
Proof. repeat split. Qed.

Lemma regroup_after_flatten_holds :
  matching X0 Y0 = true /\ nested_once Y0 = true
  /\ flatten X0 Y0 = Ok (Triple flatX flatY [2%Z; 1%Z])
  /\ exists gX gY,
      inverse_flatten (Seq flatX) (Seq flatY) [2%Z; 1%Z] = Ok (Seq gX, Seq gY)
      /\ chain gX = Ok flatX /\ chain gY = Ok flatY
      /\ length gY = length [2%Z; 1%Z].
Proof.
  do 3 (split; [reflexivity|]).
  apply (@regroup_after_flatten Z X0 Y0); try reflexivity.
  simpl. lia.
Defined.

(** *** Sizes that do not add up *)

Lemma inverse_flatten_total_holds :
  exists gX gY,
    inverse_flatten (Seq flatX) (Seq predicted) [1%Z; 1%Z]
    = Ok (Seq gX, Seq gY)
    /\ length gX = 2%nat /\ length gY = 2%nat
    /\ chain gX = Ok [a1; a2] /\ chain gY = Ok [Atom 9%Z; Atom 8%Z]
    /\ flatX = [a1; a2] ++ [b1] /\ predicted = [Atom 9%Z; Atom 8%Z] ++ [Atom 7%Z].
Proof.
  apply (@inverse_flatten_total Z flatX predicted [1%Z; 1%Z]).
  - reflexivity.
  - repeat constructor; lia.
  - simpl; lia.
Defined.

(** *** The instance *)

Lemma predict_unfit_holds :
  @predict Z unit unit vec mdl X0 (start unfit)
  = (Raise (AssertionError
              "Model has not been fit! Cannot make predictions for new data."),
     start unfit).
Proof. apply (@predict_unfit Z unit unit vec mdl). reflexivity. Defined.

(** [predict] hands the flat [[7, 7, 7]] to the inverse transform, where
    [fit_predict] hands over [[[7, 7], [7]]]. *)
Lemma inverse_transform_arguments_hold :
  (calls (snd (@predict Z unit unit vec mdl X0 (start fitted)))
   = [] ++ [CallClone; CallFitTransform X0 (Seq flatY) true;
            CallModelPredict (Seq flatX);
            CallInverseFitTransform
              X0 (Seq [Atom 7%Z; Atom 7%Z; Atom 7%Z])]
   /\ fst (@predict Z unit unit vec mdl X0 (start fitted))
      = Ok (Seq [Atom 7%Z; Atom 7%Z; Atom 7%Z]))
  /\
  (calls (snd (@fit_predict Z unit unit vec mdl X0 Y0 (start unfit)))
   = [] ++ [CallFitTransform X0 Y0 false;
            CallModelFit (Seq flatX) (Seq flatY);
            CallModelPredict (Seq flatX);
            CallInverseFitTransform
              X0 (Seq [Seq [Atom 7%Z; Atom 7%Z]; Seq [Atom 7%Z]])]
   /\ fst (@fit_predict Z unit unit vec mdl X0 Y0 (start unfit))
      = Ok (Seq [Seq [Atom 7%Z; Atom 7%Z]; Seq [Atom 7%Z]])).
Proof.
  split.
  - exact (proj1 (@inverse_transform_arguments Z unit unit vec mdl)
             fitted [] X0 (Seq flatY) tt X0 (placeholder X0)
             flatX [Atom 0%Z; Atom 0%Z; Atom 0%Z] [2%Z; 1%Z]
             (Seq [Atom 7%Z; Atom 7%Z; Atom 7%Z])
             X0 (Seq [Seq [Atom 7%Z; Atom 7%Z]; Seq [Atom 7%Z]])
             eq_refl eq_refl eq_refl eq_refl eq_refl).
  - exact (proj2 (@inverse_transform_arguments Z unit unit vec mdl)
             unfit [] X0 Y0 tt X0 Y0 flatX flatY [2%Z; 1%Z] tt
             (Seq [Atom 7%Z; Atom 7%Z; Atom 7%Z])
             X0 (Seq [Seq [Atom 7%Z; Atom 7%Z]; Seq [Atom 7%Z]])
             eq_refl eq_refl eq_refl eq_refl eq_refl).
Defined.

(** *** Loading *)

Lemma load_missing_holds :
  load exists_ join unpickle "models" "nothing"
  = Raise (AssertionError "Cannot load model. Pickle file does not exist!").
Proof. apply load_missing; reflexivity. Defined.

Lemma load_swallows_unpickling_error_holds :
  unpickle "broken.pkl" = Raise (Foreign "EOFError")
  /\ load exists_ join unpickle "models" "broken.pkl"
     = from_config unit "broken.pkl"
  /\ load exists_ join unpickle "models" "broken.pkl" = Ok None.
Proof.
  split; [reflexivity|].
  apply (@load_swallows_unpickling_error
           unit exists_ join unpickle "models" "broken.pkl" (Foreign "EOFError"));
    reflexivity.
Defined.

End Cases.

(** * Further properties of the code *)

(** ** [flatten] at any depth *)

Section FlattenAnyDepth.
Context {A : Type}.
Implicit Types (X Y x y : value A) (xs ys fX fY : list (value A)).

(** Induction on a value, with the property at hand for every element of a
    sequence. *)
Lemma value_nested_ind (P : value A -> Prop) :
  (forall a, P (Atom a)) ->
  (forall l, Forall P l -> P (Seq l)) ->
  forall v, P v.
Proof.
  intros Hatom Hseq. fix IH 1. intros [a|l].
  - apply Hatom.
  - apply Hseq. induction l as [|v l IHl]; constructor.
    + apply IH.
    + exact IHl.
Qed.

(** What the loop needs to return, whatever the recursive call does. *)
Lemma flatten_loop_returns (f : value A -> value A -> result (flat A)) xs :
  forall ys fX fY fZ r,
    flatten_loop f xs ys fX fY fZ = Ok r ->
    (exists fX' fY', r = Triple fX' fY' (fZ ++ map size xs))
    /\ forallb is_seq xs = true
    /\ (length xs <= length ys)%nat.
Proof.
  induction xs as [|x xs IH]; intros ys fX fY fZ r E.
  - destruct ys; simpl in E; injection E as <-;
      (split; [do 2 eexists; now rewrite app_nil_r | split; [reflexivity | simpl; lia]]).
  - destruct ys as [|y ys]; [discriminate|]. cbn [flatten_loop] in E.
    destruct (f x y) as [dat|e]; [|discriminate]. cbn [bind] in E.
    destruct x as [a|l]; [discriminate|]. cbn [len bind] in E.
    apply IH in E as ((fX' & fY' & ->) & S' & L).
    split; [|split].
    + do 2 eexists. now rewrite <- app_assoc.
    + exact S'.
    + simpl. lia.
Qed.

(** X1.  [flatten] of a sequence [Y] returns only if every [X[i]] has a
    [len] and [Y] has at least [len(X)] elements; what it returns is then a
    triple whose [Z] is [[len(X[0]), len(X[1]), ...]], one entry for every
    element of [X], however deep the nesting. *)
Theorem flatten_returns_sizes xs ys r :
  flatten (Seq xs) (Seq ys) = Ok r ->
  (exists fX fY, r = Triple fX fY (map size xs))
  /\ forallb is_seq xs = true
  /\ (length xs <= length ys)%nat.
Proof.
  simpl. intros E. now apply flatten_loop_returns in E.
Qed.

Lemma flatten_loop_prefix (f : value A -> value A -> result (flat A)) xs :
  forall ys extra fX fY fZ,
    (length xs <= length ys)%nat ->
    flatten_loop f xs (ys ++ extra) fX fY fZ = flatten_loop f xs ys fX fY fZ.
Proof.
  induction xs as [|x xs IH]; intros ys extra fX fY fZ L.
  - destruct ys, extra; reflexivity.
  - destruct ys as [|y ys]; [simpl in L; lia|].
    cbn [flatten_loop app].
    destruct (f x y) as [dat|e]; [|reflexivity]. cbn [bind].
    destruct (len x) as [n|e]; [|reflexivity]. cbn [bind].
    apply IH. simpl in L. lia.
Qed.

(** X2.  The responses past [len(X)] are never read: with at least as many
    responses as predictors, [flatten] gives what it gives on the first
    [len(X)] responses, result or exception. *)
Theorem flatten_ignores_extra_responses xs ys extra :
  (length xs <= length ys)%nat ->
  flatten (Seq xs) (Seq (ys ++ extra)) = flatten (Seq xs) (Seq ys).
Proof.
  intros L. simpl. now apply flatten_loop_prefix.
Qed.

Lemma flatten_loop_lengths ys : forall xs fX fY fZ r,
  Forall (fun y => forall x r', flatten x y = Ok r' ->
                                length (dat0 r') = length (dat1 r')) ys ->
  length fX = length fY ->
  flatten_loop flatten xs ys fX fY fZ = Ok r ->
  length (dat0 r) = length (dat1 r).
Proof.
  induction ys as [|y ys IH]; intros xs fX fY fZ r Hys L E.
  - destruct xs; [|discriminate]. injection E as <-. exact L.
  - destruct xs as [|x xs]; [injection E as <-; exact L|].
    cbn [flatten_loop] in E.
    inversion Hys as [|? ? Hy Hys']; subst.
    destruct (flatten x y) as [dat|e] eqn:Ed; [|discriminate]. cbn [bind] in E.
    destruct (len x) as [n|e]; [|discriminate]. cbn [bind] in E.
    apply IH in E; [exact E | exact Hys'|].
    rewrite !length_app. now rewrite L, (Hy _ _ Ed).
Qed.

Lemma flatten_lengths Y : forall X r,
  flatten X Y = Ok r -> length (dat0 r) = length (dat1 r).
Proof.
  induction Y as [a|ys IH] using value_nested_ind; intros X r E.
  - injection E as <-. reflexivity.
  - destruct X as [b|xs]; [discriminate|]. simpl in E.
    now apply flatten_loop_lengths in E.
Qed.

(** X3.  Whatever [X] and [Y] are, when [flatten] returns, the flattened
    predictors and the flattened responses have the same length. *)
Theorem flatten_lengths_agree X Y r :
  flatten X Y = Ok r -> length (dat0 r) = length (dat1 r).
Proof. apply flatten_lengths. Qed.

Lemma flatten_loop_matching ys : forall xs fX fY fZ,
  Forall (fun y => forall x, matching x y = true ->
            flatten x y
            = Ok (match y with
                  | Seq _ => Triple (samples x y) (labels y) (map size (items x))
                  | Atom _ => Pair [x] [y]
                  end)) ys ->
  all2 matching xs ys = true ->
  flatten_loop flatten xs ys fX fY fZ
  = Ok (Triple (fX ++ concat (map2 samples xs ys))
               (fY ++ concat (map labels ys))
               (fZ ++ map size xs)).
Proof.
  induction ys as [|y ys IH]; intros [|x xs] fX fY fZ Hys M;
    try discriminate.
  - simpl. now rewrite !app_nil_r.
  - cbn [all2] in M. apply andb_true_iff in M as [Mx M].
    inversion Hys as [|? ? Hy Hys']; subst.
    cbn [flatten_loop]. rewrite (Hy _ Mx). cbn [bind].
    assert (Sx : is_seq x = true).
    { destruct y; [exact Mx | destruct x; [discriminate | reflexivity]]. }
    rewrite (is_seq_inv _ Sx) at 1. rewrite len_Seq. cbn [bind].
    rewrite (IH xs _ _ _ Hys' M). cbn [map2 map concat].
    rewrite <- (is_seq_inv _ Sx).
    destruct y; cbn [dat0 dat1 samples labels]; now rewrite <- !app_assoc.
Qed.

Lemma flatten_matching_any Y : forall X,
  matching X Y = true ->
  flatten X Y
  = Ok (match Y with
        | Seq _ => Triple (samples X Y) (labels Y) (map size (items X))
        | Atom _ => Pair [X] [Y]
        end).
Proof.
  induction Y as [a|ys IH] using value_nested_ind; intros X M.
  - reflexivity.
  - destruct X as [b|xs]; [discriminate|]. simpl in M.
    cbn [flatten]. now rewrite (flatten_loop_matching _ _ _ _ IH M).
Qed.

(** X4.  At any depth: for [X] and a sequence [Y] of matching ragged shape,
    [flatten] returns, the flattened [Y] is the scalar labels of [Y] in
    order, the flattened [X] is the part of [X] at each label, in the same
    order, and [Z] holds the lengths of the elements of [X]. *)
Theorem flatten_any_depth X Y :
  matching X Y = true -> is_seq Y = true ->
  flatten X Y = Ok (Triple (samples X Y) (labels Y) (map size (items X)))
  /\ length (samples X Y) = length (labels Y).
Proof.
  intros M S. pose proof (flatten_matching_any _ _ M) as E.
  destruct Y as [a|ys]; [discriminate|].
  split; [exact E|].
  apply (flatten_lengths _ _ E).
Qed.
End FlattenAnyDepth.

(** ** [inverse_flatten] on any input *)

Section InverseFlattenFacts.
Context {A : Type}.
Implicit Types (X Y : value A) (xs ys l : list (value A)).


Lemma regroup_length X Y fZ : forall cidx tX tY rX rY,
  regroup X Y fZ cidx tX tY = Ok (rX, rY) ->
  length rX = (length tX + length fZ)%nat
  /\ length rY = (length tY + length fZ)%nat.
Proof.
  induction fZ as [|z fZ IH]; intros cidx tX tY rX rY E; simpl in E.
  - injection E as <- <-. simpl. lia.
  - destruct (getslice X cidx (cidx + z)) as [sx|e]; [|discriminate].
    destruct (getslice Y cidx (cidx + z)) as [sy|e]; [|discriminate].
    cbn [bind] in E. apply IH in E. rewrite !length_app in E. simpl in *. lia.
Qed.


(** X6.  Regrouping a second time with the same sizes changes nothing: what
    [inverse_flatten] returned has [len(Z)] groups at most, so the guard
    fails on it and it comes back as it is. *)
Theorem inverse_flatten_idempotent X Y fZ X' Y' :
  inverse_flatten X Y fZ = Ok (X', Y') ->
  inverse_flatten X' Y' fZ = Ok (X', Y').
Proof.
  destruct Y as [b|ys]; [discriminate|].
  unfold inverse_flatten at 1. cbn [len bind].
  destruct (Z.ltb_spec (Z.of_nat (length fZ)) (Z.of_nat (length ys)))
    as [G|G].
  - destruct (regroup X (Seq ys) fZ 0 [] []) as [[tX tY]|e] eqn:E;
      [|discriminate].
    cbn [bind]. intros E'. injection E' as <- <-.
    apply regroup_length in E as [_ L]. simpl in L.
    unfold inverse_flatten. cbn [len bind].
    destruct (Z.ltb_spec (Z.of_nat (length fZ)) (Z.of_nat (length tY)));
      [lia | reflexivity].
  - intros E'. injection E' as <- <-.
    unfold inverse_flatten. cbn [len bind].
    destruct (Z.ltb_spec (Z.of_nat (length fZ)) (Z.of_nat (length ys)));
      [lia | reflexivity].
Qed.

(** While the sizes fit in what is left of [l], every group has the size
    that [Z] asks for. *)
Lemma sizes_cuts l fZ : forall cidx,
  Forall (fun z => 0 <= z)%Z fZ -> (0 <= cidx)%Z ->
  (cidx + total fZ <= Z.of_nat (length l))%Z ->
  map (fun g => Z.of_nat (length g)) (cuts l fZ cidx) = fZ.
Proof.
  induction fZ as [|z fZ IH]; intros cidx Hz Hc Hfit; simpl.
  - reflexivity.
  - inversion Hz as [|? ? Hz0 Hz']; subst. simpl in Hfit.
    pose proof (total_nonneg Hz') as Ht.
    rewrite IH by (assumption || lia).
    rewrite slice_cursor by assumption.
    rewrite length_firstn, length_skipn. f_equal. lia.
Qed.

Lemma map_size_groups (gs : list (list (value A))) :
  map size (map Seq gs) = map (fun g => Z.of_nat (length g)) gs.
Proof. now rewrite map_map. Qed.

(** X7.  When the sizes are not negative and their sum is at most the
    common length of [X] and [Y] (and the guard holds), the groups that
    [inverse_flatten] returns have exactly the sizes in [Z], in order, on
    both sides. *)
Theorem inverse_flatten_group_sizes xs ys fZ :
  length xs = length ys ->
  Forall (fun z => 0 <= z)%Z fZ ->
  (total fZ <= Z.of_nat (length ys))%Z ->
  (length fZ < length ys)%nat ->
  exists gX gY,
    inverse_flatten (Seq xs) (Seq ys) fZ = Ok (Seq gX, Seq gY)
    /\ forallb is_seq gX = true /\ forallb is_seq gY = true
    /\ map size gX = fZ /\ map size gY = fZ.
Proof.
  intros E Hz Hfit G. rewrite inverse_flatten_regroups by assumption.
  do 2 eexists. split; [reflexivity|].
  rewrite !map_size_groups, !sizes_cuts by (assumption || lia).
  repeat split; apply forallb_forall; intros v Hv;
    apply in_map_iff in Hv as (g & <- & _); reflexivity.
Qed.

Lemma leaf_pairs xs : forall ys,
  length xs = length ys ->
  forallb is_seq xs = true -> forallb is_atom ys = true ->
  all2 matching xs ys = true.
Proof.
  induction xs as [|x xs IH]; intros [|y ys] L Sx Sy; simpl in *;
    try discriminate; [reflexivity|].
  apply andb_true_iff in Sx as [Sx Sxs], Sy as [Sy Sys].
  apply is_atom_inv in Sy as [a ->]. simpl. rewrite Sx. simpl.
  apply IH; auto.
Qed.

Lemma forallb_firstn {T} (p : T -> bool) n : forall l : list T,
  forallb p l = true -> forallb p (firstn n l) = true.
Proof.
  induction n as [|n IH]; intros [|x l] F; simpl in *; try reflexivity.
  apply andb_true_iff in F as [Fx F]. rewrite Fx. simpl. now apply IH.
Qed.

Lemma forallb_skipn {T} (p : T -> bool) n : forall l : list T,
  forallb p l = true -> forallb p (skipn n l) = true.
Proof.
  induction n as [|n IH]; intros [|x l] F; simpl in *; try reflexivity;
    [exact F|].
  apply andb_true_iff in F as [_ F]. now apply IH.
Qed.

Lemma cuts_matching xs ys fZ : forall cidx,
  length xs = length ys ->
  forallb is_seq xs = true -> forallb is_atom ys = true ->
  Forall (fun z => 0 <= z)%Z fZ -> (0 <= cidx)%Z ->
  all2 matching (map Seq (cuts xs fZ cidx)) (map Seq (cuts ys fZ cidx)) = true
  /\ forallb flat_seq (map Seq (cuts ys fZ cidx)) = true.
Proof.
  induction fZ as [|z fZ IH]; intros cidx L Sx Sy Hz Hc; simpl.
  - split; reflexivity.
  - inversion Hz as [|? ? Hz0 Hz']; subst.
    destruct (IH (cidx + z)%Z L Sx Sy Hz') as [M F]; [lia|].
    rewrite M, F, !slice_cursor by assumption.
    rewrite !andb_true_r. split.
    + apply leaf_pairs.
      * rewrite !length_firstn, !length_skipn. lia.
      * now apply forallb_firstn, forallb_skipn.
      * now apply forallb_firstn, forallb_skipn.
    + now apply forallb_firstn, forallb_skipn.
Qed.

(** X8.  The round trip in the other direction: for feature vectors [X]
    and as many scalar labels [Y], cut into groups by sizes [Z] that are not
    negative and sum to [len(Y)] (with fewer groups than labels),
    [flatten] of what [inverse_flatten] returned gives [X], [Y] and [Z]
    back. *)
Theorem flatten_inverse_flatten xs ys fZ :
  length xs = length ys ->
  forallb is_seq xs = true -> forallb is_atom ys = true ->
  Forall (fun z => 0 <= z)%Z fZ ->
  total fZ = Z.of_nat (length ys) ->
  (length fZ < length ys)%nat ->
  exists gX gY,
    inverse_flatten (Seq xs) (Seq ys) fZ = Ok (gX, gY)
    /\ flatten gX gY = Ok (Triple xs ys fZ).
Proof.
  intros L Sx Sy Hz Ht G. rewrite inverse_flatten_regroups by assumption.
  do 2 eexists. split; [reflexivity|].
  destruct (@cuts_matching xs ys fZ 0%Z L Sx Sy Hz (Z.le_refl 0)) as [M F].
  rewrite flatten_nested_once by assumption. cbn [items].
  rewrite map_size_groups, sizes_cuts by (assumption || lia).
  assert (C : forall gs : list (list (value A)),
             concat (map items (map Seq gs)) = concat gs).
  { intros gs. rewrite map_map. simpl. now rewrite map_id. }
  rewrite !C, !concat_cuts by (assumption || lia). simpl skipn.
  now rewrite !firstn_all2 by lia.
Qed.
End InverseFlattenFacts.

(** ** The methods of the instance, one after the other *)

Section LearnerMore.
Context {A V M : Type} `{Vectorizer A V} `{Model A M}.
Implicit Types (s : learner A V M) (w : world A V M) (X Y : value A).

(** X9.  When the vectorizer hands back a response that is a scalar, [fit]
    raises [ValueError] at the unpacking of what [flatten] returned, a pair
    where three values are expected: the vectorizer has been refit by then,
    the three cached arrays are as they were, and the model is not
    called. *)
Theorem fit_scalar_response s cs X Y v1 tX (a : A) :
  fit_transform (vectorizer s) X Y false = Ok (v1, (tX, Atom a)) ->
  fit X Y {| self := s; calls := cs |}
  = (Raise ValueError,
     {| self := {| vectorizer := v1; model := model s;
                   _X := _X s; _Y := _Y s; _Z := _Z s |};
        calls := cs ++ [CallFitTransform X Y false] |}).
Proof.
  intros Et.
  unfold fit, self_fit_transform, pbind, log, get_self, put_self, lift, ret.
  simpl. now rewrite Et.
Qed.

Lemma predict_starts w X sY :
  _Y (self w) = Some sY ->
  exists rest,
    calls (snd (predict X w))
    = calls w ++ CallClone :: CallFitTransform X sY true :: rest.
Proof.
  intros E. destruct w as [s cs]. simpl in E.
  unfold predict, self_clone, obj_fit_transform, self_model_predict,
    obj_inverse_fit_transform, pbind, log, get_self, lift, ret. simpl.
  rewrite E. simpl.
  destruct (fit_transform (clone (vectorizer s)) X sY true)
    as [[obj1 [tX tY]]|e]; simpl;
    [|rewrite <- app_assoc; eexists; reflexivity].
  destruct (flatten tX tY) as [[fX fY|fX fY fZ]|e]; simpl;
    try (rewrite <- app_assoc; eexists; reflexivity).
  destruct (model_predict (model s) (Seq fX)) as [pY|e]; simpl;
    [|rewrite <- !app_assoc; eexists; reflexivity].
  destruct (inverse_flatten (Seq fX) pY fZ) as [[gX gY]|e]; simpl;
    [|rewrite <- !app_assoc; eexists; reflexivity].
  destruct (inverse_fit_transform obj1 gX pY) as [[obj2 [rX rY]]|e]; simpl;
    rewrite <- !app_assoc; eexists; reflexivity.
Qed.

(** X10.  Once [fit] has got past [flatten], the cache is set whether the
    model's own [fit] then returns or raises: a [predict] that follows does
    not stop at the not-fit check, it clones the refit vectorizer and calls
    its [fit_transform] with the cached flat responses and [pred=True]. *)
Theorem predict_after_fit s cs X Y v1 tX tY fX fY fZ X' :
  fit_transform (vectorizer s) X Y false = Ok (v1, (tX, tY)) ->
  flatten tX tY = Ok (Triple fX fY fZ) ->
  let w1 := snd (fit X Y {| self := s; calls := cs |}) in
  _Y (self w1) = Some (Seq fY)
  /\ vectorizer (self w1) = v1
  /\ exists rest,
      calls (snd (predict X' w1))
      = calls w1 ++ CallClone :: CallFitTransform X' (Seq fY) true :: rest.
Proof.
  intros Et Ef w1.
  assert (E : _Y (self w1) = Some (Seq fY) /\ vectorizer (self w1) = v1).
  { subst w1.
    destruct (model_fit (model s) (Seq fX) (Seq fY)) as [m1|e] eqn:Em.
    - rewrite (@fit_returns _ _ _ _ _ s cs _ _ _ _ _ _ _ _ _ Et Ef Em).
      split; reflexivity.
    - rewrite (@fit_raises_in_model _ _ _ _ _ s cs _ _ _ _ _ _ _ _ _ Et Ef Em).
      split; reflexivity. }
  destruct E as [Ey Ev]. repeat split; try assumption.
  now apply predict_starts.
Qed.

(** X11.  [predict] and [transform] work on a clone of the vectorizer:
    whatever happens, result or exception, the attributes of the instance
    are afterwards what they were before (given a [clone] and a model
    [predict] that leave their object alone, as the interfaces have it). *)
Theorem predict_transform_keep_instance :
  (forall w X, self (snd (predict X w)) = self w)
  /\ (forall w X Y, self (snd (Learner.transform X Y w)) = self w).
Proof.
  split.
  - intros [s cs] X.
    unfold predict, self_clone, obj_fit_transform, self_model_predict,
      obj_inverse_fit_transform, pbind, log, get_self, lift, ret, raise.
    simpl.
    destruct (_Y s) as [sY|]; simpl; [|reflexivity].
    destruct (fit_transform (clone (vectorizer s)) X sY true)
      as [[obj1 [tX tY]]|e]; simpl; [|reflexivity].
    destruct (flatten tX tY) as [[fX fY|fX fY fZ]|e]; simpl;
      try reflexivity.
    destruct (model_predict (model s) (Seq fX)) as [pY|e]; simpl;
      [|reflexivity].
    destruct (inverse_flatten (Seq fX) pY fZ) as [[gX gY]|e]; simpl;
      [|reflexivity].
    destruct (inverse_fit_transform obj1 gX pY) as [[obj2 [rX rY]]|e];
      reflexivity.
  - intros [s cs] X Y.
    unfold Learner.transform, self_clone, Learner.obj_fit_transform_plain,
      pbind, log, get_self, lift, ret. simpl.
    destruct (fit_transform (clone (vectorizer s)) X Y false)
      as [[obj1 [tX tY]]|e]; reflexivity.
Qed.

Lemma fit_predict_runs s cs X Y v1 tX tY fX fY fZ m1 pY gX gY :
  fit_transform (vectorizer s) X Y false = Ok (v1, (tX, tY)) ->
  flatten tX tY = Ok (Triple fX fY fZ) ->
  model_fit (model s) (Seq fX) (Seq fY) = Ok m1 ->
  model_predict m1 (Seq fX) = Ok pY ->
  inverse_flatten (Seq fX) pY fZ = Ok (gX, gY) ->
  calls (snd (fit_predict X Y {| self := s; calls := cs |}))
  = cs ++ [CallFitTransform X Y false; CallModelFit (Seq fX) (Seq fY);
           CallModelPredict (Seq fX); CallInverseFitTransform gX gY].
Proof.
  intros Et Ef Em Ep Ei. unfold fit_predict.
  rewrite (@pbind_returns _ _ _ _ _ (fit X Y) _ _ _ _
             (@fit_returns _ _ _ _ _ s cs _ _ _ _ _ _ _ _ _ Et Ef Em)).
  unfold self_model_predict, self_inverse_fit_transform, pbind, log,
    get_self, put_self, lift, ret. simpl.
  rewrite Ep, Ei. simpl. rewrite <- !app_assoc. simpl.
  destruct (inverse_fit_transform v1 gX gY) as [[v2 [rX rY]]|e];
    reflexivity.
Qed.

(** X12.  [fit_predict] on data with one level of nesting, with a model
    that predicts one label per flattened sample, and more samples than
    groups: the inverse transform is handed the transformed [X] as the
    vectorizer produced it, and the predictions cut into groups of the same
    sizes as the groups of the transformed [Y]. *)
Theorem fit_predict_regroups s cs X Y v1 tX tY fX fY fZ m1 ps :
  fit_transform (vectorizer s) X Y false = Ok (v1, (tX, tY)) ->
  matching tX tY = true -> nested_once tY = true ->
  flatten tX tY = Ok (Triple fX fY fZ) ->
  model_fit (model s) (Seq fX) (Seq fY) = Ok m1 ->
  model_predict m1 (Seq fX) = Ok (Seq ps) ->
  length ps = length fY ->
  (length fZ < length fY)%nat ->
  exists gY,
    calls (snd (fit_predict X Y {| self := s; calls := cs |}))
    = cs ++ [CallFitTransform X Y false; CallModelFit (Seq fX) (Seq fY);
             CallModelPredict (Seq fX); CallInverseFitTransform tX (Seq gY)]
    /\ chain gY = Ok ps
    /\ map size gY = map size (items tY).
Proof.
  intros Et Mt Nt Ef Em Ep Lp G.
  pose proof (inverse_flatten_flatten _ _ Mt Nt Ef G) as Rt.
  rewrite inverse_flatten_regroups in Rt by assumption.
  injection Rt as RX _.
  pose proof Ef as Ef'. rewrite (flatten_nested_once _ _ Mt Nt) in Ef'.
  injection Ef' as EfX EfY EfZ.
  assert (Hz : Forall (fun z => 0 <= z)%Z fZ)
    by (rewrite <- EfZ; apply sizes_nonneg).
  assert (Ht : total fZ = Z.of_nat (length fX))
    by (rewrite <- EfZ, <- EfX; apply total_sizes).
  assert (Lxy : length fX = length fY)
    by (now apply (flatten_lengths _ _ Ef)).
  assert (Ei : inverse_flatten (Seq fX) (Seq ps) fZ
               = Ok (tX, Seq (map Seq (cuts ps fZ 0)))).
  { rewrite inverse_flatten_regroups by lia. now rewrite RX. }
  exists (map Seq (cuts ps fZ 0)). split; [|split].
  - eapply fit_predict_runs; eassumption.
  - rewrite chain_groups, concat_cuts by (assumption || lia). simpl skipn.
    apply f_equal, firstn_all2. lia.
  - rewrite map_size_groups, sizes_cuts by (assumption || lia).
    rewrite <- EfZ.
    destruct tY as [b|ys]; [discriminate|].
    destruct tX as [c|xs]; [discriminate|]. simpl in *.
    now destruct (parallel_groups_length _ _ Mt Nt) as (_ & S' & _).
Qed.

(** X13.  [fit_transform] leaves the instance and the trace exactly as
    [fit] does; and when the vectorizer, [flatten] and the model all
    return, it returns the flattened predictors and responses that [fit]
    cached, which have the same length. *)
Theorem fit_transform_returns_cache :
  (forall w X Y, snd (Learner.fit_transform X Y w) = snd (fit X Y w))
  /\ (forall s cs X Y v1 tX tY fX fY fZ m1,
        fit_transform (vectorizer s) X Y false = Ok (v1, (tX, tY)) ->
        flatten tX tY = Ok (Triple fX fY fZ) ->
        model_fit (model s) (Seq fX) (Seq fY) = Ok m1 ->
        fst (Learner.fit_transform X Y {| self := s; calls := cs |})
        = Ok (Some (Seq fX), Some (Seq fY))
        /\ length fX = length fY).
Proof.
  split.
  - intros w X Y. unfold Learner.fit_transform, pbind at 1.
    destruct (fit X Y w) as [[[]|e] w']; reflexivity.
  - intros s cs X Y v1 tX tY fX fY fZ m1 Et Ef Em. split.
    + unfold Learner.fit_transform.
      rewrite (@pbind_returns _ _ _ _ _ (fit X Y) _ _ _ _
                 (@fit_returns _ _ _ _ _ s cs _ _ _ _ _ _ _ _ _ Et Ef Em)).
      reflexivity.
    + apply (flatten_lengths _ _ Ef).
Qed.
End LearnerMore.

(** ** Saving and loading *)

Section LoadMore.
Variable Obj : Type.
Variable path_exists : string -> bool.
Variable path_join : string -> string -> string.
Variable joblib_load : string -> result Obj.
Variable session_models : string.

(** X14.  When there is no file at [filename] itself, the models directory
    decides.  With a [.pkl] there, an exception of [joblib.load] reaches the
    caller: it is not swallowed as it is for a direct path.  With a [.yml]
    only, [load] returns [None] without raising. *)
Theorem load_from_models_directory (filename : string) :
  path_exists filename = false ->
  (path_exists (path_join session_models (filename ++ ".pkl")) = true ->
   (forall e,
       joblib_load (path_join session_models (filename ++ ".pkl")) = Raise e ->
       load path_exists path_join joblib_load session_models filename
       = Raise e)
   /\ (forall o,
       joblib_load (path_join session_models (filename ++ ".pkl")) = Ok o ->
       load path_exists path_join joblib_load session_models filename
       = Ok (Some o)))
  /\ (path_exists (path_join session_models (filename ++ ".pkl")) = false ->
      path_exists (path_join session_models (filename ++ ".yml")) = true ->
      load path_exists path_join joblib_load session_models filename
      = Ok None).
Proof.
  intros E1. unfold load. rewrite E1. split.
  - intros E2. rewrite E2. split; intros ? E; now rewrite E.
  - intros E2 E3. now rewrite E2, E3.
Qed.
End LoadMore.

Section PersistenceFacts.
Context {A V M : Type} `{Vectorizer A V} `{Model A M}.
Variable writable : string -> bool.
Variable composite : V -> V.
Variable basename : string -> string.
Variable path_join : string -> string -> string.
Variable session_models : string.
Implicit Types (s : learner A V M) (fs : files A V M).

(** X15.  What [save] writes is a new instance, built from a clone of the
    vectorizer and the model: [load] of the same path gives it back, with
    the model of the saved instance and none of its cached arrays, so that
    [predict] on the loaded instance raises the not-fit error even when the
    saved one had been fit.  For an archived model the path is the name in
    the models directory, and [load] finds it by the base name when no file
    of that name lies in the way. *)
Theorem save_then_load s filename fs :
  let o := Learner.init composite (clone (vectorizer s)) (model s) in
  let n := basename filename in
  (writable filename = true ->
   let out := save writable composite basename path_join session_models
                   s filename false fs in
   fst out = Ok tt
   /\ load_in path_join session_models (snd out) filename = Ok (Some o))
  /\ (writable (path_join session_models (n ++ ".pkl")) = true ->
      fs n = None ->
      let out := save writable composite basename path_join session_models
                      s filename true fs in
      fst out = Ok tt
      /\ load_in path_join session_models (snd out) n = Ok (Some o))
  /\ model o = model s /\ _X o = None /\ _Y o = None /\ _Z o = None
  /\ (forall X cs,
         fst (predict X {| self := o; calls := cs |})
         = Raise (AssertionError
                    "Model has not been fit! Cannot make predictions for new data.")).
Proof.
  intros o n. split; [|split].
  - intros W out. subst out. unfold save, dump. rewrite W. simpl.
    split; [reflexivity|].
    unfold load_in, load, exists_in, read. now rewrite !String.eqb_refl.
  - intros W N out. subst out. unfold save, dump. fold n. rewrite W. simpl.
    split; [reflexivity|].
    unfold load_in, load, exists_in, read.
    destruct (String.eqb n (path_join session_models (n ++ ".pkl"))) eqn:D.
    + reflexivity.
    + rewrite N, !String.eqb_refl. reflexivity.
  - repeat split.
Qed.

(** X16.  A file that already exists at the base name shadows the archive:
    after [save] with [archive=True], [load] of that name gives what it
    gave before the save, and [None] when the file is no pickle, although
    the models directory holds the saved model. *)
Theorem archive_shadowed s filename fs (f : file A V M) :
  let n := basename filename in
  fs n = Some f ->
  n <> path_join session_models (n ++ ".pkl") ->
  let fs' := snd (save writable composite basename path_join session_models
                       s filename true fs) in
  load_in path_join session_models fs' n
  = load_in path_join session_models fs n
  /\ (f = Garbage -> load_in path_join session_models fs' n = Ok None).
Proof.
  intros n N D fs'.
  assert (E : fs' n = Some f).
  { subst fs'. unfold save, dump. fold n.
    destruct (writable (path_join session_models (n ++ ".pkl"))); simpl;
      [|exact N].
    apply String.eqb_neq in D. now rewrite D. }
  unfold load_in, load, exists_in, read. rewrite E, N.
  split; [reflexivity|]. now intros ->.
Qed.
End PersistenceFacts.

(** * The further properties on concrete data *)

Module MoreCases.
Import Demo Bench.

(** *** [flatten] *)

Lemma flatten_returns_sizes_holds :
  (exists fX fY,
      Triple flatX flatY [2%Z; 1%Z]
      = Triple fX fY (map size [Seq [a1; a2]; Seq [b1]]))
  /\ forallb is_seq [Seq [a1; a2]; Seq [b1]] = true
  /\ (length [Seq [a1; a2]; Seq [b1]]
      <= length [Seq [Atom 0%Z; Atom 1%Z]; Seq [Atom 1%Z]])%nat.
Proof.
  apply (@flatten_returns_sizes Z [Seq [a1; a2]; Seq [b1]]
           [Seq [Atom 0%Z; Atom 1%Z]; Seq [Atom 1%Z]]).
  reflexivity.
Defined.

Lemma flatten_ignores_extra_responses_holds :
  flatten (Seq [a1; a2]) (Seq ([Atom 0%Z; Atom 1%Z] ++ [Atom 1%Z]))
  = flatten (Seq [a1; a2]) (Seq [Atom 0%Z; Atom 1%Z]).
Proof.
  apply (@flatten_ignores_extra_responses Z). simpl. lia.
Defined.

Lemma flatten_lengths_agree_holds :
  length (dat0 (Triple flatX flatY [2%Z])) = length (dat1 (Triple flatX flatY [2%Z])).
Proof.
  apply (@flatten_lengths_agree Z deepX deepY). reflexivity.
Defined.

Lemma flatten_any_depth_holds :
  flatten deepX deepY = Ok (Triple (samples deepX deepY) (labels deepY) (map size (items deepX)))
  /\ length (samples deepX deepY) = length (labels deepY).
Proof.
  apply (@flatten_any_depth Z deepX deepY); reflexivity.
Defined.

(** *** [inverse_flatten] *)

Lemma inverse_flatten_idempotent_holds :
  inverse_flatten (Seq [Seq [a1; a2]; Seq [b1]])
                  (Seq [Seq [Atom 9%Z; Atom 8%Z]; Seq [Atom 7%Z]]) [2%Z; 1%Z]
  = Ok (Seq [Seq [a1; a2]; Seq [b1]],
        Seq [Seq [Atom 9%Z; Atom 8%Z]; Seq [Atom 7%Z]]).
Proof.
  apply (@inverse_flatten_idempotent Z (Seq flatX) (Seq predicted)).
  reflexivity.
Defined.

Lemma inverse_flatten_group_sizes_holds :
  exists gX gY,
    inverse_flatten (Seq flatX) (Seq predicted) [2%Z; 1%Z]
    = Ok (Seq gX, Seq gY)
    /\ forallb is_seq gX = true /\ forallb is_seq gY = true
    /\ map size gX = [2%Z; 1%Z] /\ map size gY = [2%Z; 1%Z].
Proof.
  apply (@inverse_flatten_group_sizes Z flatX predicted [2%Z; 1%Z]).
  - reflexivity.
  - repeat constructor; lia.
  - simpl; lia.
  - simpl; lia.
Defined.

Lemma flatten_inverse_flatten_holds :
  exists gX gY,
    inverse_flatten (Seq flatX) (Seq flatY) [2%Z; 1%Z] = Ok (gX, gY)
    /\ flatten gX gY = Ok (Triple flatX flatY [2%Z; 1%Z]).
Proof.
  apply (@flatten_inverse_flatten Z flatX flatY [2%Z; 1%Z]);
    try reflexivity.
  - repeat constructor; lia.
  - simpl; lia.
Defined.

(** *** The instance *)

Lemma fit_scalar_response_holds :
  @fit Z unit unit vec mdl X0 (Atom 0%Z) (start fitted)
  = (Raise ValueError,
     {| self := {| vectorizer := tt; model := model fitted;
                   _X := _X fitted; _Y := _Y fitted; _Z := _Z fitted |};
        calls := [] ++ [CallFitTransform X0 (Atom 0%Z) false] |}).
Proof.
  apply (@fit_scalar_response Z unit unit vec mdl fitted [] X0 (Atom 0%Z)
           tt X0 0%Z).
  reflexivity.
Defined.

Lemma predict_after_fit_holds :
  fst (@fit Z unit unit vec stubborn X0 Y0 (start unfit))
  = Raise (Foreign "ValueError")
  /\ _Y (self (snd (@fit Z unit unit vec stubborn X0 Y0 (start unfit))))
     = Some (Seq flatY)
  /\ vectorizer (self (snd (@fit Z unit unit vec stubborn X0 Y0 (start unfit))))
     = tt
  /\ exists rest,
      calls (snd (@predict Z unit unit vec stubborn X0
                    (snd (@fit Z unit unit vec stubborn X0 Y0 (start unfit)))))
      = calls (snd (@fit Z unit unit vec stubborn X0 Y0 (start unfit)))
        ++ CallClone :: CallFitTransform X0 (Seq flatY) true :: rest.
Proof.
  split; [reflexivity|].
  apply (@predict_after_fit Z unit unit vec stubborn unfit [] X0 Y0
           tt X0 Y0 flatX flatY [2%Z; 1%Z] X0); reflexivity.
Defined.

Lemma fit_predict_regroups_holds :
  exists gY,
    calls (snd (@fit_predict Z unit unit vec mdl X0 Y0 (start unfit)))
    = [] ++ [CallFitTransform X0 Y0 false;
             CallModelFit (Seq flatX) (Seq flatY);
             CallModelPredict (Seq flatX);
             CallInverseFitTransform X0 (Seq gY)]
    /\ chain gY = Ok [Atom 7%Z; Atom 7%Z; Atom 7%Z]
    /\ map size gY = map size (items Y0).
Proof.
  apply (@fit_predict_regroups Z unit unit vec mdl unfit [] X0 Y0
           tt X0 Y0 flatX flatY [2%Z; 1%Z] tt
           [Atom 7%Z; Atom 7%Z; Atom 7%Z]); try reflexivity.
  simpl; lia.
Defined.

Lemma fit_transform_returns_cache_holds :
  snd (@Learner.fit_transform Z unit unit vec mdl X0 Y0 (start unfit))
  = snd (@fit Z unit unit vec mdl X0 Y0 (start unfit))
  /\ fst (@Learner.fit_transform Z unit unit vec mdl X0 Y0
            {| self := unfit; calls := [] |})
     = Ok (Some (Seq flatX), Some (Seq flatY))
  /\ length flatX = length flatY.
Proof.
  split.
  - apply (proj1 (@fit_transform_returns_cache Z unit unit vec mdl)).
  - apply (proj2 (@fit_transform_returns_cache Z unit unit vec mdl)
             unfit [] X0 Y0 tt X0 Y0 flatX flatY [2%Z; 1%Z] tt);
      reflexivity.
Defined.

(** *** Saving and loading *)

Lemma load_from_models_directory_holds :
  load only_pkl join unpickle "models" "svm" = Raise (Foreign "EOFError")
  /\ load only_yml join unpickle "models" "svm" = Ok None.
Proof.
  split.
  - apply (proj1 (proj1 (@load_from_models_directory
                           unit only_pkl join unpickle "models" "svm" eq_refl)
                    eq_refl)).
    reflexivity.
  - apply (proj2 (@load_from_models_directory
                    unit only_yml join unpickle "models" "svm" eq_refl));
      reflexivity.
Defined.

Lemma save_then_load_holds :
  (fst (@save Z unit unit vec anywhere wrap basename join "models"
          fitted "out/svm.pkl" false empty) = Ok tt
   /\ load_in join "models"
        (snd (@save Z unit unit vec anywhere wrap basename join "models"
                fitted "out/svm.pkl" false empty)) "out/svm.pkl"
      = Ok (Some unfit))
  /\ (fst (@save Z unit unit vec anywhere wrap basename join "models"
             fitted "out/svm" true empty) = Ok tt
      /\ load_in join "models"
           (snd (@save Z unit unit vec anywhere wrap basename join "models"
                   fitted "out/svm" true empty)) "svm"
         = Ok (Some unfit)).
Proof.
  split.
  - apply (proj1 (@save_then_load Z unit unit vec mdl anywhere wrap basename
                    join "models" fitted "out/svm.pkl" empty)).
    reflexivity.
  - apply (proj1 (proj2 (@save_then_load Z unit unit vec mdl anywhere wrap
                           basename join "models" fitted "out/svm" empty)));
      reflexivity.
Defined.

Lemma archive_shadowed_holds :
  load_in join "models"
    (snd (@save Z unit unit vec anywhere wrap basename join "models"
            fitted "out/svm" true shadowed)) "svm"
  = load_in join "models" shadowed "svm"
  /\ (@Garbage Z unit unit = Garbage ->
      load_in join "models"
        (snd (@save Z unit unit vec anywhere wrap basename join "models"
                fitted "out/svm" true shadowed)) "svm"
      = Ok None).
Proof.
  apply (@archive_shadowed Z unit unit vec anywhere wrap basename join
           "models" fitted "out/svm" shadowed Garbage).
  - reflexivity.
  - discriminate.
Defined.

End MoreCases.
